(** * dso-data-age-anonymizer: the date shifting filter of [main.py]

    A shallow embedding of [shift_date], [anonymize_data] and [main], with
    the parts of Python's [datetime], [_strptime], [re] and text I/O they
    rely on, and the properties of the filter proved over it. *)

From Stdlib Require Import ZArith NArith Lia List String Ascii.
From Stdlib.Strings Require Import Byte.
From stdpp Require Import base option list gmap strings.

Local Open Scope Z_scope.

(** ** Proleptic Gregorian calendar, after [datetime.date] *)

Module Calendar.

Record date := mkdate { year : Z; month : Z; day : Z }.

Definition MINYEAR : Z := 1.
Definition MAXYEAR : Z := 9999.
Definition _MAXORDINAL : Z := 3652059.

(** [_DAYS_IN_MONTH] and [_DAYS_BEFORE_MONTH]; index 0 holds the
    placeholder -1 as in the tables of the library. *)
Definition _DAYS_IN_MONTH (m : Z) : Z :=
  match m with
  | 1 => 31 | 2 => 28 | 3 => 31 | 4 => 30 | 5 => 31 | 6 => 30
  | 7 => 31 | 8 => 31 | 9 => 30 | 10 => 31 | 11 => 30 | 12 => 31
  | _ => -1
  end.

Definition _DAYS_BEFORE_MONTH (m : Z) : Z :=
  match m with
  | 1 => 0 | 2 => 31 | 3 => 59 | 4 => 90 | 5 => 120 | 6 => 151
  | 7 => 181 | 8 => 212 | 9 => 243 | 10 => 273 | 11 => 304 | 12 => 334
  | _ => -1
  end.

Definition _is_leap (y : Z) : bool :=
  (y mod 4 =? 0) && (negb (y mod 100 =? 0) || (y mod 400 =? 0)).

Definition _days_before_year (y : Z) : Z :=
  let y := y - 1 in y * 365 + y / 4 - y / 100 + y / 400.

Definition _days_in_month (y m : Z) : Z :=
  if (m =? 2) && _is_leap y then 29 else _DAYS_IN_MONTH m.

Definition _days_before_month (y m : Z) : Z :=
  _DAYS_BEFORE_MONTH m + (if (2 <? m) && _is_leap y then 1 else 0).

Definition _ymd2ord (y m d : Z) : Z :=
  _days_before_year y + _days_before_month y m + d.

Definition _DI400Y : Z := 146097.
Definition _DI100Y : Z := 36524.
Definition _DI4Y : Z := 1461.

Definition _ord2ymd (n : Z) : date :=
  let n := n - 1 in
  let n400 := n / _DI400Y in
  let n := n mod _DI400Y in
  let y := n400 * 400 + 1 in
  let n100 := n / _DI100Y in
  let n := n mod _DI100Y in
  let n4 := n / _DI4Y in
  let n := n mod _DI4Y in
  let n1 := n / 365 in
  let n := n mod 365 in
  let y := y + n100 * 100 + n4 * 4 + n1 in
  if (n1 =? 4) || (n100 =? 4) then mkdate (y - 1) 12 31
  else
    let leapyear := (n1 =? 3) && (negb (n4 =? 24) || (n100 =? 3)) in
    let m := Z.shiftr (n + 50) 5 in
    let preceding :=
      _DAYS_BEFORE_MONTH m + (if (2 <? m) && leapyear then 1 else 0) in
    if n <? preceding then
      let m := m - 1 in
      let preceding :=
        preceding - (_DAYS_IN_MONTH m + (if (m =? 2) && leapyear then 1 else 0)) in
      mkdate y m (n - preceding + 1)
    else mkdate y m (n - preceding + 1).

(** [_check_date_fields]: what the constructor [date(y, m, d)] accepts. *)
Definition valid_date (d : date) : bool :=
  (MINYEAR <=? year d) && (year d <=? MAXYEAR)
  && (1 <=? month d) && (month d <=? 12)
  && (1 <=? day d) && (day d <=? _days_in_month (year d) (month d)).

Definition toordinal (d : date) : Z := _ymd2ord (year d) (month d) (day d).
Definition fromordinal (n : Z) : date := _ord2ymd n.

(** The tail of [_ord2ymd] as a function of its own: month and day from
    the zero-based day [n] of year [y]. *)
Definition in_year (y : Z) (leapyear : bool) (n : Z) : date :=
  let m := Z.shiftr (n + 50) 5 in
  let preceding :=
    _DAYS_BEFORE_MONTH m + (if (2 <? m) && leapyear then 1 else 0) in
  if n <? preceding then
    let m := m - 1 in
    let preceding :=
      preceding - (_DAYS_IN_MONTH m + (if (m =? 2) && leapyear then 1 else 0)) in
    mkdate y m (n - preceding + 1)
  else mkdate y m (n - preceding + 1).

End Calendar.

(** ** Exceptions and log records *)

Inductive exn :=
| ValueError | OverflowError | ReError
| OSError | LookupError | UnicodeEncodeError.

(** [except ValueError] also catches the subclasses of [ValueError]. *)
Definition is_ValueError (e : exn) : bool :=
  match e with ValueError | UnicodeEncodeError => true | _ => false end.

Inductive level := INFO | WARNING | ERROR.

(** ** Characters and text

    A [str] is a list of code points. *)

Abbreviation char := N.
Abbreviation text := (list N).

Definition text_of_string (s : string) : text :=
  map N_of_ascii (list_ascii_of_string s).

(** The Unicode character database is not part of the program: the two
    properties the [re] module reads from it, for the code points above
    U+007F, are parameters of the development. *)
Class UnicodeData := {
  nd_value : char -> option Z;      (* decimal value of a code point of category Nd *)
  is_whitespace : char -> bool      (* str.isspace *)
}.

Section Text.
Context `{UnicodeData}.

(** [\d], with the value [int] gives the digit. *)
Definition digit_value (c : char) : option Z :=
  if ((48 <=? c) && (c <=? 57))%N then Some (Z.of_N c - 48)
  else if (c <? 128)%N then None
  else nd_value c.

Definition is_digit (c : char) : bool :=
  match digit_value c with Some _ => true | None => false end.

(** [\s] *)
Definition is_space (c : char) : bool :=
  if (c <? 128)%N
  then ((9 <=? c) && (c <=? 13) || (28 <=? c) && (c <=? 32))%N
  else is_whitespace c.

Definition HYPHEN : char := 45%N.
Definition PERCENT : char := 37%N.
Definition SPACE : char := 32%N.
Definition LF : char := 10%N.
Definition CR : char := 13%N.

(** [int(s)] on the text of a matched group: a leading blank is skipped,
    the digits are read in base ten. *)
Definition int_digits (s : text) : Z :=
  fold_left (fun acc c => 10 * acc + default 0 (digit_value c)) s 0.

Definition py_int (s : text) : Z :=
  match s with
  | c :: s' => if (c =? SPACE)%N then int_digits s' else int_digits s
  | [] => 0
  end.

(** *** Format strings

    [_strptime.TimeRE.pattern] turns a format string into a regular
    expression: a directive becomes a named group, a run of whitespace
    becomes [\s+], any other character stands for itself.  [fitem] is
    that reading of the format, for the numeric directives of the date
    and the time of day; [FBad] is a stray [%] or a [%] followed by a
    character that is no directive, with its text. *)

Inductive directive := dY | dm | dd | dH | dM | dS | dy.

Inductive fitem :=
| FLit (c : char)
| FSpace (raw : text)
| FDir (d : directive)
| FBad (raw : text).

Definition directive_eqb (a b : directive) : bool :=
  match a, b with
  | dY, dY | dm, dm | dd, dd | dH, dH | dM, dM | dS, dS | dy, dy => true
  | _, _ => false
  end.

Definition directive_of_char (c : char) : option directive :=
  if (c =? 89)%N then Some dY        (* Y *)
  else if (c =? 109)%N then Some dm  (* m *)
  else if (c =? 100)%N then Some dd  (* d *)
  else if (c =? 72)%N then Some dH   (* H *)
  else if (c =? 77)%N then Some dM   (* M *)
  else if (c =? 83)%N then Some dS   (* S *)
  else if (c =? 121)%N then Some dy  (* y *)
  else None.

(** The directives of [TimeRE] that are not modelled here:
    a A b B c f G I j p U u V w W x X z Z. *)
Definition other_directives : text :=
  text_of_string "aAbBcfGIjpUuVwWxXzZ".

Definition mem_char (c : char) (l : text) : bool :=
  existsb (N.eqb c) l.

(** Reads a format string; [None] when it uses a directive of
    [other_directives]. *)
Fixpoint parse_format (s : text) : option (list fitem) :=
  match s with
  | [] => Some []
  | c :: tl =>
      if (c =? PERCENT)%N then
        match tl with
        | [] => Some [FBad [c]]
        | k :: tl' =>
            if (k =? PERCENT)%N then
              option_map (cons (FLit PERCENT)) (parse_format tl')
            else match directive_of_char k with
                 | Some d => option_map (cons (FDir d)) (parse_format tl')
                 | None =>
                     if mem_char k other_directives then None
                     else option_map (cons (FBad [c; k])) (parse_format tl')
                 end
        end
      else if is_space c then
        match parse_format tl with
        | Some (FSpace raw :: items) => Some (FSpace (c :: raw) :: items)
        | Some items => Some (FSpace [c] :: items)
        | None => None
        end
      else option_map (cons (FLit c)) (parse_format tl)
  end.

(** *** The regular expressions of the directives *)

Inductive cls :=
| Cd                     (* \d *)
| Cr (lo hi : char)      (* [lo-hi] *)
| Cc (c : char).         (* one character *)

Definition cls_match (k : cls) (c : char) : bool :=
  match k with
  | Cd => is_digit c
  | Cr lo hi => ((lo <=? c) && (c <=? hi))%N
  | Cc x => (x =? c)%N
  end.

Definition D (lo hi : Z) : cls := Cr (Z.to_N (48 + lo)) (Z.to_N (48 + hi)).

(** Each directive is an alternation, tried from left to right, of
    sequences of character classes. *)
Definition directive_re (d : directive) : list (list cls) :=
  match d with
  | dY => [[Cd; Cd; Cd; Cd]]
  | dy => [[Cd; Cd]]
  | dm => [[D 1 1; D 0 2]; [D 0 0; D 1 9]; [D 1 9]]
  | dd => [[D 3 3; D 0 1]; [D 1 2; Cd]; [D 0 0; D 1 9]; [D 1 9]; [Cc SPACE; D 1 9]]
  | dH => [[D 2 2; D 0 3]; [D 0 1; Cd]; [Cd]]
  | dM => [[D 0 5; Cd]; [Cd]]
  | dS => [[D 6 6; D 0 1]; [D 0 5; Cd]; [Cd]]
  end.

(** One alternative against a prefix of [s]: the matched text and the rest. *)
Fixpoint match_seq (ks : list cls) (s : text) : option (text * text) :=
  match ks with
  | [] => Some ([], s)
  | k :: ks' =>
      match s with
      | c :: s' =>
          if cls_match k c then
            match match_seq ks' s' with
            | Some (g, rest) => Some (c :: g, rest)
            | None => None
            end
          else None
      | [] => None
      end
  end.

(** The pattern is compiled with [re.IGNORECASE]. *)
Definition lower (c : char) : char :=
  if ((65 <=? c) && (c <=? 90))%N then (c + 32)%N else c.

Definition lit_match (c x : char) : bool := (lower c =? lower x)%N.

(** The remainders [\s+] can leave, longest run first. *)
Fixpoint space_rests (s : text) : list text :=
  match s with
  | c :: s' => if is_space c then space_rests s' ++ [s'] else []
  | [] => []
  end.

(** [format_regex.match(data_string)]: the first way, in the order of a
    backtracking matcher, to match the items against a prefix of [s];
    the groups found, in the order of the format, and the text left. *)
Fixpoint re_match (items : list fitem) (s : text)
  : option (list (directive * text) * text) :=
  match items with
  | [] => Some ([], s)
  | FLit c :: items' =>
      match s with
      | x :: s' => if lit_match c x then re_match items' s' else None
      | [] => None
      end
  | FSpace _ :: items' =>
      (fix go (rests : list text) :=
         match rests with
         | [] => None
         | r :: rests' =>
             match re_match items' r with
             | Some res => Some res
             | None => go rests'
             end
         end) (space_rests s)
  | FDir d :: items' =>
      (fix go (alts : list (list cls)) :=
         match alts with
         | [] => None
         | alt :: alts' =>
             match match_seq alt s with
             | Some (g, rest) =>
                 match re_match items' rest with
                 | Some (gs, r) => Some ((d, g) :: gs, r)
                 | None => go alts'
                 end
             | None => go alts'
             end
         end) (directive_re d)
  | FBad _ :: _ => None
  end.

Definition is_bad (i : fitem) : bool :=
  match i with FBad _ => true | _ => false end.

(** Two groups of one name: [re.compile] refuses the pattern. *)
Fixpoint has_dup (items : list fitem) : bool :=
  match items with
  | [] => false
  | FDir d :: items' =>
      existsb (fun i => match i with FDir d' => directive_eqb d d' | _ => false end) items'
      || has_dup items'
  | _ :: items' => has_dup items'
  end.

(** *** [datetime.strptime] and [date.strftime] *)

Record fields := mkfields {
  f_year : option Z; f_month : Z; f_day : Z;
  f_hour : Z; f_minute : Z; f_second : Z }.

Definition fields0 : fields := mkfields None 1 1 0 0 0.

Definition set_field (f : fields) (g : directive * text) : fields :=
  let v := py_int (snd g) in
  match fst g with
  | dy => mkfields (Some (if v <=? 68 then v + 2000 else v + 1900))
            (f_month f) (f_day f) (f_hour f) (f_minute f) (f_second f)
  | dY => mkfields (Some v) (f_month f) (f_day f) (f_hour f) (f_minute f) (f_second f)
  | dm => mkfields (f_year f) v (f_day f) (f_hour f) (f_minute f) (f_second f)
  | dd => mkfields (f_year f) (f_month f) v (f_hour f) (f_minute f) (f_second f)
  | dH => mkfields (f_year f) (f_month f) (f_day f) v (f_minute f) (f_second f)
  | dM => mkfields (f_year f) (f_month f) (f_day f) (f_hour f) v (f_second f)
  | dS => mkfields (f_year f) (f_month f) (f_day f) (f_hour f) (f_minute f) v
  end.

(** [_check_time_fields] of the [datetime] constructor. *)
Definition valid_time (f : fields) : bool :=
  (0 <=? f_hour f) && (f_hour f <=? 23)
  && (0 <=? f_minute f) && (f_minute f <=? 59)
  && (0 <=? f_second f) && (f_second f <=? 59).

(** [datetime.datetime.strptime(data, format).date()] *)
Definition strptime (data : text) (format : list fitem) : exn + Calendar.date :=
  if existsb is_bad format then inl ValueError
  else if has_dup format then inl ReError
  else
    match re_match format data with
    | None => inl ValueError
    | Some (groups, rest) =>
        match rest with
        | _ :: _ => inl ValueError
        | [] =>
            let f := fold_left set_field groups fields0 in
            let d := Calendar.mkdate (default 1900 (f_year f)) (f_month f) (f_day f) in
            if Calendar.valid_date d && valid_time f then inr d
            else inl ValueError
        end
    end.

Definition digit_char (v : Z) : char := Z.to_N (48 + v mod 10).

Definition zfill2 (n : Z) : text := [digit_char (n / 10); digit_char n].
Definition zfill4 (n : Z) : text :=
  [digit_char (n / 1000); digit_char (n / 100); digit_char (n / 10); digit_char n].

Definition render (d : Calendar.date) (i : fitem) : text :=
  match i with
  | FLit c => [c]
  | FSpace raw => raw
  | FBad raw => raw
  | FDir dY => zfill4 (Calendar.year d)
  | FDir dy => zfill2 (Calendar.year d mod 100)
  | FDir dm => zfill2 (Calendar.month d)
  | FDir dd => zfill2 (Calendar.day d)
  | FDir dH | FDir dM | FDir dS => zfill2 0
  end.

(** [date.strftime(format)]: a date has no time of day, its hour, minute
    and second print as zero. *)
Definition strftime (d : Calendar.date) (format : list fitem) : text :=
  flat_map (render d) format.

(** [timedelta(days=k)] and [date + timedelta]. *)
Definition timedelta (days : Z) : exn + Z :=
  if Z.abs days <=? 999999999 then inr days else inl OverflowError.

Definition date_add (d : Calendar.date) (days : Z) : exn + Calendar.date :=
  let o := Calendar.toordinal d + days in
  if (0 <? o) && (o <=? Calendar._MAXORDINAL) then inr (Calendar.fromordinal o)
  else inl OverflowError.

(** *** The scanner: [date_regex.sub(replace_date, line)] *)

Definition date_regex : list cls :=
  [Cd; Cd; Cd; Cd; Cc HYPHEN; Cd; Cd; Cc HYPHEN; Cd; Cd].

(** [s] as a whole matches the sequence [ks]. *)
Definition full_match (ks : list cls) (s : text) : bool :=
  match match_seq ks s with
  | Some (_, []) => true
  | _ => false
  end.

(** How the scanner reads a line: where the next ten characters match
    the pattern they are one match and the scan goes on behind them,
    elsewhere one character is passed over. *)
Inductive segment :=
| Copy (c : char)
| Match (tok : text).

(** [skip] counts the characters of the current match still to pass. *)
Fixpoint scan_from (skip : nat) (line : text) : list segment :=
  match line with
  | [] => []
  | c :: tl =>
      match skip with
      | S k => scan_from k tl
      | O =>
          if full_match date_regex (take 10 line)
          then Match (take 10 line) :: scan_from 9 tl
          else Copy c :: scan_from 0 tl
      end
  end.

Definition scan (line : text) : list segment := scan_from 0 line.

(** The callback is called on the matches from left to right and may
    change the state [S]; the characters between them are copied. *)
Fixpoint sub_segments {S : Type} (repl : text -> S -> text * S)
    (segs : list segment) (st : S) : text * S :=
  match segs with
  | [] => ([], st)
  | Copy c :: segs' =>
      let (out, st1) := sub_segments repl segs' st in (c :: out, st1)
  | Match tok :: segs' =>
      let (r, st1) := repl tok st in
      let (out, st2) := sub_segments repl segs' st1 in
      (r ++ out, st2)
  end.

(** [date_regex.sub(repl, line)] *)
Definition re_sub {S : Type} (repl : text -> S -> text * S) (line : text) (st : S)
  : text * S :=
  sub_segments repl (scan line) st.

Definition source (g : segment) : text :=
  match g with Copy c => [c] | Match tok => tok end.

(** What the scanner leaves of a segment: a copied character is itself,
    a match may become anything. *)
Definition kept (g : segment) (o : text) : Prop :=
  match g with
  | Copy c => o = [c]
  | Match _ => True
  end.

(** The matches of a line that parse under a format. *)
Definition parses (format : list fitem) (tok : text) : bool :=
  match strptime tok format with inr _ => true | inl _ => false end.

Definition parsed_matches (format : list fitem) (line : text) : nat :=
  length (List.filter (fun g => match g with
                           | Match tok => parses format tok
                           | Copy _ => false
                           end) (scan line)).

(** *** Text files: universal newlines *)

(** Reading with [newline=None]: [\r\n] and [\r] become [\n]. *)
Fixpoint universal_newlines (s : text) : text :=
  match s with
  | [] => []
  | c :: tl =>
      if (c =? CR)%N then
        LF :: match tl with
              | c' :: tl' =>
                  if (c' =? LF)%N then universal_newlines tl'
                  else universal_newlines tl
              | [] => []
              end
      else c :: universal_newlines tl
  end.

(** [for line in infile]: the lines, each with its [\n]. *)
Fixpoint readlines (s : text) : list text :=
  match s with
  | [] => []
  | c :: tl =>
      if (c =? LF)%N then [c] :: readlines tl
      else match readlines tl with
           | [] => [[c]]
           | l :: ls => (c :: l) :: ls
           end
  end.

End Text.

Definition default_format : list fitem :=
  [FDir dY; FLit 45%N; FDir dm; FLit 45%N; FDir dd].

(** [%d/%m/%Y], [%Y-%d-%m] and [%H%M-%m-%d] *)
Definition dmy_format : list fitem :=
  [FDir dd; FLit 47%N; FDir dm; FLit 47%N; FDir dY].
Definition ydm_format : list fitem :=
  [FDir dY; FLit 45%N; FDir dd; FLit 45%N; FDir dm].
Definition hm_format : list fitem :=
  [FDir dH; FDir dM; FLit 45%N; FDir dm; FLit 45%N; FDir dd].

(** ** The program *)

(** What the program logs, by the place that logs it. *)
Inductive event :=
| InvalidDate (date_str : text)        (* shift_date, except ValueError *)
| ShiftFailed (date_str : text)        (* shift_date, except Exception *)
| DetectFailed                         (* detect_encoding *)
| InputNotFound (input_file : string)
| EncodingUnknown
| AnonymizeFailed
| Anonymized (input_file output_file : string)
| BadMaxShift.

Abbreviation record := (level * event)%type.

(** [random.Random]: a generator made from a seed, or from the entropy of
    the system when the seed is [None]; [randint a b] draws from the
    closed interval. *)
Class RandomGen := {
  rng : Type;
  seeded : Z -> rng;
  unseeded : list byte -> rng;
  randint : Z -> Z -> rng -> Z * rng;
  randint_range : forall a b g, a <= b -> a <= fst (randint a b g) <= b
}.

(** A text codec, as [open] uses it: decoding with [errors='ignore'],
    strict encoding. *)
Record Codec := {
  decode : list byte -> text;
  can_encode : char -> bool;
  encode : text -> list byte
}.

(** The parts of the platform the program calls: the codec registry,
    [chardet.detect(raw)['encoding']] and [os.linesep]. *)
Class Platform := {
  codecs_lookup : string -> option Codec;
  chardet_detect : list byte -> option string;
  linesep : text
}.

(** A path names a regular file, or something [open] refuses
    (a directory, a file without permission). *)
Inductive node :=
| Regular (data : list byte)
| Refused.

Record world := mkworld {
  fs : gmap string node;
  creatable : string -> bool;   (* may [open(p, 'w')] create [p] *)
  urandom : list byte;
  stderr : list record
}.

Definition logging (l : level) (e : event) (w : world) : world :=
  mkworld (fs w) (creatable w) (urandom w) (stderr w ++ [(l, e)]).

Definition path_exists (p : string) (w : world) : bool :=
  match fs w !! p with Some _ => true | None => false end.

(** [open(p, 'rb')] and [open(p, 'r')]: nothing is read yet. *)
Definition open_read (p : string) (w : world) : exn + unit :=
  match fs w !! p with
  | Some (Regular _) => inr tt
  | _ => inl OSError
  end.

Definition read_bytes (p : string) (w : world) : list byte :=
  match fs w !! p with
  | Some (Regular data) => data
  | _ => []
  end.

Definition set_file (p : string) (data : list byte) (w : world) : world :=
  mkworld (<[p := Regular data]> (fs w)) (creatable w) (urandom w) (stderr w).

(** [open(p, 'w')] creates the file or empties it. *)
Definition open_write (p : string) (w : world) : exn + world :=
  match fs w !! p with
  | Some (Regular _) => inr (set_file p [] w)
  | Some Refused => inl OSError
  | None => if creatable w p then inr (set_file p [] w) else inl OSError
  end.

Section Filter.
Context `{UnicodeData} `{RandomGen} `{Platform}.

(** Code that draws from the generator and may raise. *)
Definition Draw (A : Type) : Type := rng -> (exn + A) * rng.

Definition ret {A} (a : A) : Draw A := fun g => (inr a, g).
Definition lift {A} (r : exn + A) : Draw A := fun g => (r, g).
Definition bind {A B} (m : Draw A) (k : A -> Draw B) : Draw B :=
  fun g =>
    match m g with
    | (inl e, g') => (inl e, g')
    | (inr a, g') => k a g'
    end.

Notation "'let*' x := m 'in' k" := (bind m (fun x => k))
  (at level 10, x name, m at level 100, k at level 200, only parsing).

(** [random_state.randint(a, b)] raises [ValueError] on an empty range. *)
Definition py_randint (a b : Z) : Draw Z :=
  fun g =>
    if b <? a then (inl ValueError, g)
    else let (v, g') := randint a b g in (inr v, g').

(** The generator after one call of [randint(-M, M)]. *)
Definition advance (max_shift_days : Z) (g : rng) : rng :=
  snd (randint (- max_shift_days) max_shift_days g).

(** The body of the [try] of [shift_date]. *)
Definition shift_date_try (date_str : text) (max_shift_days : Z)
    (date_format : list fitem) : Draw text :=
  let* date_obj := lift (strptime date_str date_format) in
  let* shift_days := py_randint (- max_shift_days) max_shift_days in
  let* delta := lift (timedelta shift_days) in
  let* shifted_date := lift (date_add date_obj delta) in
  ret (strftime shifted_date date_format).

(** The generator and the log, as the callback of the scanner sees them. *)
Record pstate := mkpstate {
  random_state : rng;
  logged : list record
}.

Definition shift_date (date_str : text) (max_shift_days : Z)
    (date_format : list fitem) (st : pstate) : option text * pstate :=
  match shift_date_try date_str max_shift_days date_format (random_state st) with
  | (inr s, g) => (Some s, mkpstate g (logged st))
  | (inl e, g) =>
      if is_ValueError e
      then (None, mkpstate g (logged st ++ [(WARNING, InvalidDate date_str)]))
      else (None, mkpstate g (logged st ++ [(ERROR, ShiftFailed date_str)]))
  end.

(** [replace_date]: the token itself when [shift_date] gave [None] or an
    empty string. *)
Definition replace_date (max_shift_days : Z) (date_format : list fitem)
    (date_str : text) (st : pstate) : text * pstate :=
  let (shifted_date, st') := shift_date date_str max_shift_days date_format st in
  match shifted_date with
  | Some (c :: s) => (c :: s, st')
  | _ => (date_str, st')
  end.

(** Writing with [newline=None]: [\\n] becomes [os.linesep]. *)
Definition write_translate (s : text) : text :=
  flat_map (fun c => if (c =? LF)%N then linesep else [c]) s.

(** The loop over the lines: the state and the text written so far. *)
Fixpoint write_lines (max_shift_days : Z) (date_format : list fitem)
    (codec : Codec) (lines : list text) (st : pstate) (out : text)
  : (exn + unit) * pstate * text :=
  match lines with
  | [] => (inr tt, st, out)
  | line :: lines' =>
      let (anonymized_line, st') :=
        re_sub (replace_date max_shift_days date_format) line st in
      let s := write_translate anonymized_line in
      if forallb (can_encode codec) s
      then write_lines max_shift_days date_format codec lines' st' (out ++ s)
      else (inl UnicodeEncodeError, st', out)
  end.

Definition Random (seed : option Z) (w : world) : rng :=
  match seed with
  | Some s => seeded s
  | None => unseeded (urandom w)
  end.

Definition detect_encoding (file_path : string) (w : world) : option string * world :=
  match open_read file_path w with
  | inr _ => (chardet_detect (read_bytes file_path w), w)
  | inl _ => (None, logging ERROR DetectFailed w)
  end.

(** The body of the [with] statement, both files open: [w1] is the world
    after [open(output_file, 'w')].  The files are closed, and the text
    written is on disk, however the body is left. *)
Definition with_files (input_file output_file : string) (max_shift_days : Z)
    (seed : option Z) (date_format : list fitem) (codec : Codec) (w1 : world)
  : (exn + unit) * world :=
  let lines :=
    readlines (universal_newlines (decode codec (read_bytes input_file w1))) in
  let st := mkpstate (Random seed w1) (stderr w1) in
  let '(r, st', out) :=
    write_lines max_shift_days date_format codec lines st [] in
  let data := match out with [] => [] | _ => encode codec out end in
  (r, mkworld (<[output_file := Regular data]> (fs w1))
              (creatable w1) (urandom w1) (logged st')).

(** The [try] block of [anonymize_data]: the two calls of [open], in
    this order, before the first line is read.  [open] opens the file
    and then looks the codec up. *)
Definition anonymize_try (input_file output_file : string) (max_shift_days : Z)
    (seed : option Z) (date_format : list fitem) (encoding : string) (w : world)
  : (exn + unit) * world :=
  match open_read input_file w with
  | inl e => (inl e, w)
  | inr _ =>
      match codecs_lookup encoding with
      | None => (inl LookupError, w)
      | Some codec =>
          match open_write output_file w with
          | inl e => (inl e, w)
          | inr w1 =>
              with_files input_file output_file max_shift_days seed
                date_format codec w1
          end
      end
  end.

Definition anonymize_data (input_file output_file : string) (max_shift_days : Z)
    (seed : option Z) (date_format : list fitem) (encoding : option string)
    (w : world) : (exn + unit) * world :=
  if negb (path_exists input_file w) then
    (inr tt, logging ERROR (InputNotFound input_file) w)
  else
    let (enc, w0) :=
      match encoding with
      | Some e => (Some e, w)
      | None => detect_encoding input_file w
      end in
    match enc with
    | None => (inr tt, logging ERROR EncodingUnknown w0)
    | Some e =>
        match anonymize_try input_file output_file max_shift_days seed date_format e w0 with
        | (inr _, w') => (inr tt, logging INFO (Anonymized input_file output_file) w')
        | (inl _, w') => (inr tt, logging ERROR AnonymizeFailed w')
        end
    end.

(** The parsed command line. *)
Record args := mkargs {
  input_file : string;
  output_file : string;
  max_shift_days : Z;
  seed : option Z;
  date_format : list fitem;
  encoding : option string
}.

Definition main (a : args) (w : world) : (exn + unit) * world :=
  if max_shift_days a <=? 0 then
    (inr tt, logging ERROR BadMaxShift w)
  else
    anonymize_data (input_file a) (output_file a) (max_shift_days a) (seed a)
      (date_format a) (encoding a) w.

End Filter.

(** ** A sample platform

    Concrete instances of the parameters, to run the program on. *)

Module Sample.

(** An excerpt of the Unicode tables: the Arabic-Indic, Devanagari and
    fullwidth digits; the blanks above U+007F. *)
Definition nd_zeros : list N := [1632; 2406; 65296]%N.

Definition excerpt_nd (c : char) : option Z :=
  match filter (fun z => bool_decide (z <= c < z + 10)%N) nd_zeros with
  | z :: _ => Some (Z.of_N (c - z))
  | [] => None
  end.

Definition excerpt_space (c : char) : bool :=
  mem_char c [133; 160; 5760; 8232; 8233; 8239; 8287; 12288]%N
  || ((8192 <=? c) && (c <=? 8202))%N.

#[export] Instance unicode_excerpt : UnicodeData :=
  {| nd_value := excerpt_nd; is_whitespace := excerpt_space |}.

(** A linear congruential generator in the place of [random.Random]. *)
Definition lcg_next (g : Z) : Z := (1103515245 * g + 12345) mod 2147483648.

Definition lcg_randint (a b : Z) (g : Z) : Z * Z :=
  (a + g mod (b - a + 1), lcg_next g).

Definition lcg_of_bytes (l : list byte) : Z :=
  fold_left (fun acc b => (256 * acc + Z.of_N (Byte.to_N b)) mod 2147483648) l 0.

Lemma lcg_randint_range a b g : a <= b -> a <= fst (lcg_randint a b g) <= b.
Proof.
  intros Hab. unfold lcg_randint. cbn [fst].
  pose proof (Z.mod_pos_bound g (b - a + 1)). lia.
Qed.

#[export] Instance lcg : RandomGen :=
  {| rng := Z; seeded := fun s => s; unseeded := lcg_of_bytes;
     randint := lcg_randint; randint_range := lcg_randint_range |}.

(** Latin-1: a byte is a code point. *)
Definition latin_1 : Codec :=
  {| decode := map Byte.to_N;
     can_encode := fun c => (c <? 256)%N;
     encode := map (fun c => default x00 (Byte.of_N c)) |}.

Definition bytes_of_string (s : string) : list byte :=
  map byte_of_ascii (list_ascii_of_string s).

(** A POSIX system that knows Latin-1 only. *)
#[export] Instance posix : Platform :=
  {| codecs_lookup := fun name => if String.eqb name "latin-1" then Some latin_1 else None;
     chardet_detect := fun raw => match raw with [] => None | _ => Some "latin-1"%string end;
     linesep := [10%N] |}.

Definition world0 (files : list (string * node)) : world :=
  mkworld (list_to_map files) (fun _ => true) [] [].

End Sample.

(** * Properties *)

(** ** The calendar *)

Section CalendarFacts.
Import Calendar.

Lemma dby_decomp a b c d :
  0 <= b <= 3 -> 0 <= c <= 24 -> 0 <= d <= 3 ->
  _days_before_year (400 * a + 100 * b + 4 * c + d + 1) =
  146097 * a + 36524 * b + 1461 * c + 365 * d.
Proof.
  intros. unfold _days_before_year.
  replace (400 * a + 100 * b + 4 * c + d + 1 - 1) with (400 * a + 100 * b + 4 * c + d) by lia.
  assert ((400 * a + 100 * b + 4 * c + d) / 4 = 100 * a + 25 * b + c) by (symmetry; apply (Z.div_unique _ _ _ d); lia).
  assert ((400 * a + 100 * b + 4 * c + d) / 100 = 4 * a + b) by (symmetry; apply (Z.div_unique _ _ _ (4*c+d)); lia).
  assert ((400 * a + 100 * b + 4 * c + d) / 400 = a) by (symmetry; apply (Z.div_unique _ _ _ (100*b+4*c+d)); lia).
  lia.
Qed.

Lemma in_year_spec (y : Z) (lp : bool) (n : Z) :
  0 <= n < 365 + (if lp then 1 else 0) ->
  let d := in_year y lp n in
  year d = y /\ 1 <= month d <= 12 /\
  1 <= day d <= _DAYS_IN_MONTH (month d) + (if (month d =? 2) && lp then 1 else 0) /\
  _DAYS_BEFORE_MONTH (month d) + (if (2 <? month d) && lp then 1 else 0) + day d = n + 1.
Proof.
  intros Hn. unfold in_year.
  rewrite Z.shiftr_div_pow2 by lia. change (2 ^ 5) with 32.
  set (m := (n + 50) / 32).
  assert (Hm : 32 * m <= n + 50 < 32 * m + 32).
  { unfold m. pose proof (Z.div_mod (n + 50) 32 ltac:(lia)).
    pose proof (Z.mod_pos_bound (n + 50) 32 ltac:(lia)). lia. }
  assert (Hr : 1 <= m <= 12) by (destruct lp; lia).
  clearbody m.
  assert (Hc : m = 1 \/ m = 2 \/ m = 3 \/ m = 4 \/ m = 5 \/ m = 6 \/ m = 7 \/
               m = 8 \/ m = 9 \/ m = 10 \/ m = 11 \/ m = 12) by lia.
  destruct Hc as [->|[->|[->|[->|[->|[->|[->|[->|[->|[->|[->| ->]]]]]]]]]]];
    destruct lp;
    match goal with
    | |- context [n <? ?p] =>
        let v := eval vm_compute in p in
        change p with v; destruct (Z.ltb_spec n v)
    end;
    repeat match goal with
    | |- context [Z.pos ?a - Z.pos ?b] =>
        let v := eval vm_compute in (Z.pos a - Z.pos b) in
        change (Z.pos a - Z.pos b) with v
    end; cbn -[Z.add Z.sub Z.mul Z.le Z.lt]; lia.
Qed.

Lemma is_leap_decomp a b c d :
  0 <= b <= 3 -> 0 <= c <= 24 -> 0 <= d <= 3 ->
  _is_leap (400 * a + 100 * b + 4 * c + d + 1) =
  (d =? 3) && (negb (c =? 24) || (b =? 3)).
Proof.
  intros. unfold _is_leap.
  repeat match goal with
         | |- context [?x =? ?y] => destruct (Z.eqb_spec x y)
         end; simpl; try reflexivity; exfalso;
    Z.div_mod_to_equations; lia.
Qed.

Lemma ord2ymd_shape n :
  exists a b c d r,
    0 <= b <= 4 /\ 0 <= c <= 24 /\ 0 <= d <= 4 /\ 0 <= r < 365 /\
    n - 1 = 146097 * a + 36524 * b + 1461 * c + 365 * d + r /\
    (b = 4 -> c = 0 /\ d = 0 /\ r = 0) /\
    (d = 4 -> r = 0 /\ c <= 23) /\
    (1 <= n -> 0 <= a) /\
    (n <= _MAXORDINAL -> 400 * a + 100 * b + 4 * c + d + 1 <= 10000) /\
    (n <= _MAXORDINAL -> (b = 4 \/ d = 4) \/ 400 * a + 100 * b + 4 * c + d + 1 <= 9999) /\
    _ord2ymd n =
      if (d =? 4) || (b =? 4) then mkdate (400 * a + 100 * b + 4 * c + d) 12 31
      else in_year (400 * a + 100 * b + 4 * c + d + 1)
             ((d =? 3) && (negb (c =? 24) || (b =? 3))) r.
Proof.
  unfold _ord2ymd, _DI400Y, _DI100Y, _DI4Y, _MAXORDINAL. cbv zeta.
  set (n0 := n - 1).
  set (a := n0 / 146097). set (r1 := n0 mod 146097).
  set (b := r1 / 36524). set (r2 := r1 mod 36524).
  set (c := r2 / 1461). set (r3 := r2 mod 1461).
  set (d := r3 / 365). set (r := r3 mod 365).
  exists a, b, c, d, r.
  pose proof (Z.div_mod n0 146097 ltac:(lia)) as E1.
  pose proof (Z.mod_pos_bound n0 146097 ltac:(lia)) as B1.
  pose proof (Z.div_mod r1 36524 ltac:(lia)) as E2.
  pose proof (Z.mod_pos_bound r1 36524 ltac:(lia)) as B2.
  pose proof (Z.div_mod r2 1461 ltac:(lia)) as E3.
  pose proof (Z.mod_pos_bound r2 1461 ltac:(lia)) as B3.
  pose proof (Z.div_mod r3 365 ltac:(lia)) as E4.
  pose proof (Z.mod_pos_bound r3 365 ltac:(lia)) as B4.
  fold a r1 in E1, B1. fold b r2 in E2, B2. fold c r3 in E3, B3. fold d r in E4, B4.
  clearbody a r1 b r2 c r3 d r.
  repeat split; try lia.
  replace (a * 400 + 1 + b * 100 + c * 4 + d - 1) with (400 * a + 100 * b + 4 * c + d) by lia.
  replace (a * 400 + 1 + b * 100 + c * 4 + d) with (400 * a + 100 * b + 4 * c + d + 1) by lia.
  reflexivity.
Qed.

Lemma toordinal_fromordinal n : toordinal (fromordinal n) = n.
Proof.
  unfold toordinal, fromordinal.
  destruct (ord2ymd_shape n) as (a & b & c & d & r & Hb & Hc & Hd & Hr & Hn & H4 & H5 & _ & _ & _ & ->).
  destruct (Z.eqb_spec d 4) as [->|Hd4]; [|destruct (Z.eqb_spec b 4) as [->|Hb4]]; cbn [orb].
  - (* last day of a leap year inside a four-year cycle *)
    destruct H5 as [-> Hc']; auto. cbn [year month day]. unfold _ymd2ord, _days_before_month.
    assert (Hb' : b = 4 \/ 0 <= b <= 3) by lia. destruct Hb' as [->|Hb'].
    { destruct H4 as (? & ? & ?); auto. lia. }
    replace (400 * a + 100 * b + 4 * c + 4) with (400 * a + 100 * b + 4 * c + 3 + 1) by lia.
    rewrite is_leap_decomp, dby_decomp by lia.
    replace (c =? 24) with false by (symmetry; apply Z.eqb_neq; lia).
    cbn. lia.
  - (* last day of a 400-year cycle *)
    destruct H4 as (-> & -> & ->); auto. cbn [year month day]. unfold _ymd2ord, _days_before_month.
    replace (400 * a + 100 * 4 + 4 * 0 + 0) with (400 * a + 100 * 3 + 4 * 24 + 3 + 1) by lia.
    rewrite is_leap_decomp, dby_decomp by lia. cbn. lia.
  - assert (0 <= b <= 3) by lia. assert (0 <= d <= 3) by lia.
    set (lp := (d =? 3) && (negb (c =? 24) || (b =? 3))).
    pose proof (in_year_spec (400 * a + 100 * b + 4 * c + d + 1) lp r) as Hy.
    cbv zeta in Hy. destruct Hy as (Hy & Hm & Hday & Hsum); [destruct lp; lia|].
    unfold _ymd2ord, _days_before_month. rewrite Hy.
    rewrite is_leap_decomp, dby_decomp by lia. fold lp. lia.
Qed.

Lemma fromordinal_valid n :
  1 <= n <= _MAXORDINAL -> valid_date (fromordinal n) = true.
Proof.
  intros [Hlo Hhi]. unfold fromordinal, valid_date, MINYEAR, MAXYEAR.
  destruct (ord2ymd_shape n) as (a & b & c & d & r & Hb & Hc & Hd & Hr & Hn & H4 & H5 & Ha & Hy1 & Hy2 & ->).
  specialize (Ha Hlo). specialize (Hy1 Hhi). specialize (Hy2 Hhi).
  destruct (Z.eqb_spec d 4) as [->|Hd4]; [|destruct (Z.eqb_spec b 4) as [->|Hb4]]; cbn [orb].
  - destruct H5 as [-> Hc']; auto. cbn [year month day]. unfold _days_in_month. cbn.
    repeat (apply andb_true_intro; split); first [reflexivity | apply Z.leb_le; lia].
  - destruct H4 as (-> & -> & ->); auto. cbn [year month day]. unfold _days_in_month. cbn.
    repeat (apply andb_true_intro; split); first [reflexivity | apply Z.leb_le; lia].
  - assert (0 <= b <= 3) by lia. assert (0 <= d <= 3) by lia.
    set (lp := (d =? 3) && (negb (c =? 24) || (b =? 3))).
    pose proof (in_year_spec (400 * a + 100 * b + 4 * c + d + 1) lp r) as Hy.
    cbv zeta in Hy. destruct Hy as (Hy & Hm & Hday & Hsum); [destruct lp; lia|].
    rewrite Hy. unfold _days_in_month. rewrite is_leap_decomp by lia. fold lp.
    assert (Hdim : _DAYS_IN_MONTH (month (in_year (400 * a + 100 * b + 4 * c + d + 1) lp r)) +
               (if (month (in_year (400 * a + 100 * b + 4 * c + d + 1) lp r) =? 2) && lp then 1 else 0)
             = if (month (in_year (400 * a + 100 * b + 4 * c + d + 1) lp r) =? 2) && lp then 29
               else _DAYS_IN_MONTH (month (in_year (400 * a + 100 * b + 4 * c + d + 1) lp r))).
    { destruct (Z.eqb_spec (month (in_year (400 * a + 100 * b + 4 * c + d + 1) lp r)) 2) as [->|];
        destruct lp; cbn; lia. }
    rewrite <- Hdim.
    repeat (apply andb_true_intro; split); first [reflexivity | apply Z.leb_le; lia].
Qed.

End CalendarFacts.

(** ** The scanner *)

Section ScannerFacts.
Context `{UnicodeData}.

Lemma match_seq_split ks s g rest :
  match_seq ks s = Some (g, rest) -> s = g ++ rest /\ length g = length ks.
Proof.
  revert s g rest. induction ks as [|k ks IH]; intros s g rest; cbn.
  - intros [= <- <-]. auto.
  - destruct s as [|c s]; [discriminate|].
    destruct (cls_match k c); [|discriminate].
    destruct (match_seq ks s) as [[g' r']|] eqn:E; [|discriminate].
    intros [= <- <-]. destruct (IH _ _ _ E) as [-> Hl]. cbn. auto.
Qed.

Lemma full_match_length ks s : full_match ks s = true -> length s = length ks.
Proof.
  unfold full_match. destruct (match_seq ks s) as [[g [|]]|] eqn:E; try discriminate.
  intros _. destruct (match_seq_split _ _ _ _ E) as [-> Hl].
  rewrite app_nil_r. exact Hl.
Qed.

Lemma match_seq_app ks tok rest :
  full_match ks tok = true -> match_seq ks (tok ++ rest) = Some (tok, rest).
Proof.
  unfold full_match. revert tok.
  induction ks as [|k ks IH]; intros tok; cbn.
  - destruct tok; [reflexivity|discriminate].
  - destruct tok as [|c tok]; [discriminate|]. cbn.
    destruct (cls_match k c); [|discriminate].
    specialize (IH tok).
    destruct (match_seq ks tok) as [[g [|]]|] eqn:E; try discriminate.
    intros _. rewrite IH by reflexivity.
    destruct (match_seq_split _ _ _ _ E) as [-> _]. rewrite app_nil_r. reflexivity.
Qed.

Lemma scan_from_drop k line : scan_from k line = scan (drop k line).
Proof.
  unfold scan. revert k. induction line as [|c tl IH]; intros k.
  - destruct k; reflexivity.
  - destruct k as [|k]; [reflexivity|]. cbn [scan_from drop]. apply IH.
Qed.

(** The equation of [scan]. *)
Lemma scan_cons c tl :
  scan (c :: tl) =
  if full_match date_regex (take 10 (c :: tl))
  then Match (take 10 (c :: tl)) :: scan (drop 10 (c :: tl))
  else Copy c :: scan tl.
Proof.
  unfold scan at 1. cbn [scan_from].
  destruct (full_match date_regex (take 10 (c :: tl))); [|reflexivity].
  rewrite scan_from_drop. reflexivity.
Qed.

Lemma scan_match tok rest :
  full_match date_regex tok = true -> scan (tok ++ rest) = Match tok :: scan rest.
Proof.
  intros Hm. pose proof (full_match_length _ _ Hm) as Hl. cbn in Hl.
  destruct tok as [|c tok]; [discriminate|].
  change ((c :: tok) ++ rest) with (c :: (tok ++ rest)).
  rewrite scan_cons.
  change (c :: (tok ++ rest)) with ((c :: tok) ++ rest).
  rewrite take_app_length' by (symmetry; exact Hl).
  rewrite drop_app_length' by (symmetry; exact Hl).
  rewrite Hm. reflexivity.
Qed.

(** Induction along the way the scanner reads a line. *)
Lemma scan_ind (P : text -> Prop) :
  P [] ->
  (forall c tl, full_match date_regex (take 10 (c :: tl)) = false -> P tl -> P (c :: tl)) ->
  (forall tok rest, full_match date_regex tok = true -> P rest -> P (tok ++ rest)) ->
  forall line, P line.
Proof.
  intros Hnil Hcopy Hmatch line.
  remember (length line) as n eqn:Hn. revert line Hn.
  induction n as [n IH] using lt_wf_ind. intros line Hn.
  destruct line as [|c tl]; [exact Hnil|].
  destruct (full_match date_regex (take 10 (c :: tl))) eqn:E.
  - rewrite <- (take_drop 10 (c :: tl)). apply Hmatch; [exact E|].
    apply (IH (length (drop 10 (c :: tl)))); [|reflexivity].
    rewrite length_drop. subst n. cbn. lia.
  - apply Hcopy; [exact E|]. apply (IH (length tl)); [|reflexivity].
    subst n. cbn. lia.
Qed.

Lemma scan_copy c tl :
  full_match date_regex (take 10 (c :: tl)) = false -> scan (c :: tl) = Copy c :: scan tl.
Proof. intros E. rewrite scan_cons, E. reflexivity. Qed.

(** The segments are the line, cut. *)
Lemma concat_source_scan line : concat (map source (scan line)) = line.
Proof.
  induction line as [| c tl E IH | tok rest E IH] using scan_ind.
  - reflexivity.
  - rewrite scan_copy by exact E. cbn. rewrite IH. reflexivity.
  - rewrite scan_match by exact E. cbn. rewrite IH. reflexivity.
Qed.

(** Every match has the shape of the pattern. *)
Lemma scan_matches line :
  Forall (fun g => match g with
                   | Match tok => full_match date_regex tok = true
                   | Copy _ => True
                   end) (scan line).
Proof.
  induction line as [| c tl E IH | tok rest E IH] using scan_ind.
  - constructor.
  - rewrite scan_copy by exact E. constructor; [exact I|exact IH].
  - rewrite scan_match by exact E. constructor; [exact E|exact IH].
Qed.

End ScannerFacts.

(** ** [shift_date] *)

Section ShiftFacts.
Context `{UnicodeData} `{RandomGen}.

(** The cases of the [try] of [shift_date]. *)
Lemma shift_date_try_unparsed date_str M fmt e g :
  strptime date_str fmt = inl e ->
  shift_date_try date_str M fmt g = (inl e, g).
Proof.
  intros E. unfold shift_date_try, bind, lift. rewrite E. reflexivity.
Qed.

Lemma shift_date_try_parsed date_str M fmt d g :
  strptime date_str fmt = inr d -> 0 <= M ->
  shift_date_try date_str M fmt g =
  (match timedelta (fst (randint (- M) M g)) with
   | inl e => inl e
   | inr days =>
       match date_add d days with
       | inl e => inl e
       | inr shifted => inr (strftime shifted fmt)
       end
   end, advance M g).
Proof.
  intros E HM. unfold shift_date_try, bind, lift, py_randint, ret, advance.
  rewrite E. replace (M <? - M) with false by (symmetry; apply Z.ltb_ge; lia).
  destruct (randint (- M) M g) as [k g'] eqn:Er. cbn [fst snd].
  destruct (timedelta k) as [e|days]; [reflexivity|].
  destruct (date_add d days) as [e|shifted]; reflexivity.
Qed.

Lemma shift_date_try_some date_str M fmt g s g' :
  shift_date_try date_str M fmt g = (inr s, g') ->
  exists d,
    strptime date_str fmt = inr d /\ 0 <= M /\
    g' = advance M g /\
    0 < Calendar.toordinal d + fst (randint (- M) M g) <= Calendar._MAXORDINAL /\
    s = strftime (Calendar.fromordinal (Calendar.toordinal d + fst (randint (- M) M g))) fmt.
Proof.
  unfold shift_date_try, bind, lift, py_randint, ret, advance.
  destruct (strptime date_str fmt) as [e|d]; [discriminate|].
  destruct (Z.ltb_spec M (- M)) as [Hlt|Hge]; [discriminate|].
  destruct (randint (- M) M g) as [k g1] eqn:Er. cbn [fst snd].
  unfold timedelta. destruct (Z.abs k <=? 999999999); [|discriminate].
  unfold date_add.
  destruct (Z.ltb_spec 0 (Calendar.toordinal d + k)) as [Hlo|]; [|discriminate].
  destruct (Z.leb_spec (Calendar.toordinal d + k) Calendar._MAXORDINAL) as [Hhi|];
    [|discriminate].
  cbn. intros [= <- <-]. exists d. repeat split; auto; lia.
Qed.

End ShiftFacts.

Section ShiftDate.
Context `{UnicodeData} `{RandomGen}.

(** [shift_date] only adds to the log; what it returns and what it does
    to the generator do not depend on what was logged before. *)
Lemma shift_date_log date_str M fmt g l :
  shift_date date_str M fmt (mkpstate g l) =
  let r := shift_date date_str M fmt (mkpstate g []) in
  (fst r, mkpstate (random_state (snd r)) (l ++ logged (snd r))).
Proof.
  unfold shift_date. cbn [random_state logged].
  destruct (shift_date_try date_str M fmt g) as [[e|s] g'].
  - destruct (is_ValueError e); cbn; reflexivity.
  - cbn. rewrite app_nil_r. reflexivity.
Qed.

Lemma replace_date_log M fmt date_str g l :
  replace_date M fmt date_str (mkpstate g l) =
  let r := replace_date M fmt date_str (mkpstate g []) in
  (fst r, mkpstate (random_state (snd r)) (l ++ logged (snd r))).
Proof.
  unfold replace_date. rewrite shift_date_log. cbv zeta.
  destruct (shift_date date_str M fmt (mkpstate g [])) as [[[|c s]|] st']; reflexivity.
Qed.

Lemma sub_segments_log M fmt segs g l :
  sub_segments (replace_date M fmt) segs (mkpstate g l) =
  let r := sub_segments (replace_date M fmt) segs (mkpstate g []) in
  (fst r, mkpstate (random_state (snd r)) (l ++ logged (snd r))).
Proof.
  revert g l. induction segs as [|[c|tok] segs IH]; intros g l; cbn.
  - rewrite app_nil_r. reflexivity.
  - rewrite IH. cbv zeta.
    destruct (sub_segments (replace_date M fmt) segs (mkpstate g [])) as [out st1].
    reflexivity.
  - rewrite replace_date_log. cbv zeta.
    destruct (replace_date M fmt tok (mkpstate g [])) as [r [g1 l1]]. cbn.
    rewrite IH. rewrite (IH g1 l1). cbv zeta.
    destruct (sub_segments (replace_date M fmt) segs (mkpstate g1 [])) as [out [g2 l2]].
    cbn. rewrite app_assoc. reflexivity.
Qed.

End ShiftDate.

(** ** The run *)

Section RunFacts.
Context `{UnicodeData} `{RandomGen} `{Platform}.

Lemma write_lines_log M fmt codec lines g l out :
  write_lines M fmt codec lines (mkpstate g l) out =
  let r := write_lines M fmt codec lines (mkpstate g []) out in
  (fst (fst r),
   mkpstate (random_state (snd (fst r))) (l ++ logged (snd (fst r))),
   snd r).
Proof.
  revert g l out. induction lines as [|line lines IH]; intros g l out; cbn.
  - rewrite app_nil_r. reflexivity.
  - unfold re_sub. rewrite sub_segments_log. cbv zeta.
    destruct (sub_segments (replace_date M fmt) (scan line) (mkpstate g []))
      as [aline [g1 l1]]. cbn [fst snd random_state logged].
    destruct (forallb (can_encode codec) (write_translate aline)); [|reflexivity].
    rewrite IH. rewrite (IH g1 l1). cbv zeta. cbn [fst snd random_state logged].
    rewrite app_assoc. reflexivity.
Qed.

(** Two runs that stop at the same place, having written nothing. *)
Ltac stopped :=
  split; [reflexivity | split; [congruence | exists []; rewrite !app_nil_r; auto]].

(** What the run leaves behind depends on the world only through the two
    files it names; the log is extended. *)
Lemma anonymize_try_frame input output M s fmt enc w1 w2 :
  fs w1 !! input = fs w2 !! input ->
  fs w1 !! output = fs w2 !! output ->
  creatable w1 output = creatable w2 output ->
  let r1 := anonymize_try input output M (Some s) fmt enc w1 in
  let r2 := anonymize_try input output M (Some s) fmt enc w2 in
  fst r1 = fst r2 /\
  fs (snd r1) !! output = fs (snd r2) !! output /\
  exists new, stderr (snd r1) = stderr w1 ++ new /\ stderr (snd r2) = stderr w2 ++ new.
Proof.
  intros Hin Hout Hcr. unfold anonymize_try.
  assert (Hread : forall w, read_bytes input (set_file output [] w) =
                    if decide (output = input) then [] else read_bytes input w).
  { intros w. unfold read_bytes, set_file. cbn [fs].
    destruct (decide (output = input)) as [->|Hne].
    - rewrite lookup_insert_eq. reflexivity.
    - rewrite lookup_insert_ne by exact Hne. reflexivity. }
  assert (Hrb : read_bytes input w1 = read_bytes input w2).
  { unfold read_bytes. rewrite Hin. reflexivity. }
  unfold open_read. rewrite <- Hin.
  destruct (fs w1 !! input) as [[data|]|] eqn:E1; cbn [fst snd]; try stopped.
  destruct (codecs_lookup enc) as [codec|]; cbn [fst snd]; [|stopped].
  unfold open_write. rewrite <- Hout, <- Hcr.
  assert (Hgo : forall w,
    let r := with_files input output M (Some s) fmt codec (set_file output [] w) in
    let r0 := write_lines M fmt codec
                (readlines (universal_newlines
                   (decode codec (if decide (output = input) then [] else read_bytes input w))))
                (mkpstate (seeded s) []) [] in
    fst r = fst (fst r0) /\
    fs (snd r) !! output =
      Some (Regular match snd r0 with [] => [] | _ :: _ => encode codec (snd r0) end) /\
    stderr (snd r) = stderr w ++ logged (snd (fst r0))).
  { intros w. cbv zeta. unfold with_files. rewrite Hread. cbn [Random stderr set_file].
    rewrite write_lines_log. cbv zeta.
    destruct (write_lines M fmt codec _ (mkpstate (seeded s) []) []) as [[r st'] out].
    cbn [fst snd fs stderr logged random_state].
    rewrite lookup_insert_eq. auto. }
  pose proof (Hgo w1) as G1. pose proof (Hgo w2) as G2. cbv zeta in G1, G2.
  rewrite <- Hrb in G2.
  destruct G1 as (A1 & B1 & C1), G2 as (A2 & B2 & C2).
  assert (Hrun :
    let r1 := with_files input output M (Some s) fmt codec (set_file output [] w1) in
    let r2 := with_files input output M (Some s) fmt codec (set_file output [] w2) in
    fst r1 = fst r2 /\ fs (snd r1) !! output = fs (snd r2) !! output /\
    exists new, stderr (snd r1) = stderr w1 ++ new /\ stderr (snd r2) = stderr w2 ++ new).
  { cbv zeta. rewrite A1, B1, C1, A2, B2, C2. eauto. }
  destruct (fs w1 !! output) as [[odata|]|] eqn:E2; cbn [fst snd]; try stopped.
  - exact Hrun.
  - destruct (creatable w1 output); cbn [fst snd]; [exact Hrun|stopped].
Qed.


End RunFacts.

(** ** The shift of one token *)

Section TokenClaims.
Context `{UnicodeData} `{RandomGen}.

(** What a successful [shift_date] has done. *)
Lemma shift_date_some date_str M fmt st s st' :
  shift_date date_str M fmt st = (Some s, st') ->
  exists date_obj shift_days,
    strptime date_str fmt = inr date_obj /\
    randint (- M) M (random_state st) = (shift_days, random_state st') /\
    - M <= shift_days <= M /\
    0 < Calendar.toordinal date_obj + shift_days <= Calendar._MAXORDINAL /\
    s = strftime (Calendar.fromordinal (Calendar.toordinal date_obj + shift_days)) fmt.
Proof.
  unfold shift_date.
  destruct (shift_date_try date_str M fmt (random_state st)) as [[e|s0] g] eqn:E.
  { destruct (is_ValueError e); discriminate. }
  intros [= <- <-]. cbn [random_state].
  destruct (shift_date_try_some _ _ _ _ _ _ E) as (d & Hd & HM & -> & Hord & ->).
  pose proof (randint_range (- M) M (random_state st) ltac:(lia)) as Hr.
  exists d, (fst (randint (- M) M (random_state st))).
  repeat split; try lia.
  - exact Hd.
  - unfold advance. destruct (randint (- M) M (random_state st)); reflexivity.
Qed.

Lemma date_add_in_range d k :
  0 < Calendar.toordinal d + k <= Calendar._MAXORDINAL ->
  date_add d k = inr (Calendar.fromordinal (Calendar.toordinal d + k)).
Proof.
  intros Hord. unfold date_add.
  replace (0 <? Calendar.toordinal d + k) with true
    by (symmetry; apply Z.ltb_lt; lia).
  replace (Calendar.toordinal d + k <=? Calendar._MAXORDINAL) with true
    by (symmetry; apply Z.leb_le; lia).
  reflexivity.
Qed.

(** C2. When [shift_date] returns a string, the token parsed to a date,
    the shift is the value of the one call [randint(-M, M)] and lies in
    the closed interval from -M to M, and the date printed is that many
    days from the date parsed: at most M days in absolute value. *)
Theorem shift_within_max_shift date_str M fmt st s st' :
  shift_date date_str M fmt st = (Some s, st') ->
  exists date_obj shift_days shifted,
    strptime date_str fmt = inr date_obj /\
    randint (- M) M (random_state st) = (shift_days, random_state st') /\
    - M <= shift_days <= M /\
    date_add date_obj shift_days = inr shifted /\
    s = strftime shifted fmt /\
    Calendar.toordinal shifted - Calendar.toordinal date_obj = shift_days /\
    Z.abs (Calendar.toordinal shifted - Calendar.toordinal date_obj) <= M.
Proof.
  intros Hs.
  destruct (shift_date_some _ _ _ _ _ _ Hs) as (d & k & Hd & Hr & Hk & Hord & ->).
  exists d, k, (Calendar.fromordinal (Calendar.toordinal d + k)).
  rewrite toordinal_fromordinal.
  repeat split; try lia; try assumption.
  apply date_add_in_range. exact Hord.
Qed.

(** Every shift of the interval is reached: a generator that draws [k]
    moves the date by [k] days, by none when it draws 0. *)
Lemma shift_by_draw date_str M fmt st d k :
  strptime date_str fmt = inr d ->
  fst (randint (- M) M (random_state st)) = k -> 0 <= M <= 999999999 ->
  0 < Calendar.toordinal d + k <= Calendar._MAXORDINAL ->
  fst (shift_date date_str M fmt st) =
  Some (strftime (Calendar.fromordinal (Calendar.toordinal d + k)) fmt).
Proof.
  intros Hd Hk HM Hord. unfold shift_date.
  rewrite (shift_date_try_parsed _ M _ _ _ Hd) by lia. rewrite Hk.
  pose proof (randint_range (- M) M (random_state st) ltac:(lia)) as Hr.
  rewrite Hk in Hr.
  unfold timedelta, date_add.
  replace (Z.abs k <=? 999999999) with true by (symmetry; apply Z.leb_le; lia).
  replace (0 <? Calendar.toordinal d + k) with true
    by (symmetry; apply Z.ltb_lt; lia).
  replace (Calendar.toordinal d + k <=? Calendar._MAXORDINAL) with true
    by (symmetry; apply Z.leb_le; lia).
  reflexivity.
Qed.

(** [replace_date] leaves the state as [shift_date] left it. *)
Lemma replace_date_state M fmt tok st :
  snd (replace_date M fmt tok st) = snd (shift_date tok M fmt st).
Proof.
  unfold replace_date.
  destruct (shift_date tok M fmt st) as [[[|c s]|] st']; reflexivity.
Qed.

Lemma shift_date_unparsed date_str M fmt st e :
  strptime date_str fmt = inl e ->
  shift_date date_str M fmt st =
  (None, mkpstate (random_state st)
           (logged st ++ [if is_ValueError e
                          then (WARNING, InvalidDate date_str)
                          else (ERROR, ShiftFailed date_str)])).
Proof.
  intros E. unfold shift_date.
  rewrite (shift_date_try_unparsed _ M _ _ _ E).
  destruct (is_ValueError e); reflexivity.
Qed.

Lemma re_sub_match {S : Type} (repl : text -> S -> text * S) tok rest st :
  full_match date_regex tok = true ->
  re_sub repl (tok ++ rest) st =
  (fst (repl tok st) ++ fst (re_sub repl rest (snd (repl tok st))),
   snd (re_sub repl rest (snd (repl tok st)))).
Proof.
  intros Hm. unfold re_sub. rewrite scan_match by exact Hm. cbn.
  destruct (repl tok st) as [r st1]. cbn.
  destruct (sub_segments repl (scan rest) st1); reflexivity.
Qed.

Lemma re_sub_copy {S : Type} (repl : text -> S -> text * S) c tl st :
  full_match date_regex (take 10 (c :: tl)) = false ->
  re_sub repl (c :: tl) st =
  (c :: fst (re_sub repl tl st), snd (re_sub repl tl st)).
Proof.
  intros Hm. unfold re_sub. rewrite scan_copy by exact Hm. cbn.
  destruct (sub_segments repl (scan tl) st); reflexivity.
Qed.

(** A token [strptime] refuses with a [ValueError]. *)
Lemma replace_date_unparsed date_str M fmt st :
  strptime date_str fmt = inl ValueError ->
  shift_date date_str M fmt st =
    (None, mkpstate (random_state st) (logged st ++ [(WARNING, InvalidDate date_str)])) /\
  replace_date M fmt date_str st =
    (date_str, mkpstate (random_state st) (logged st ++ [(WARNING, InvalidDate date_str)])).
Proof.
  intros E.
  assert (Hs : shift_date date_str M fmt st =
    (None, mkpstate (random_state st) (logged st ++ [(WARNING, InvalidDate date_str)]))).
  { rewrite (shift_date_unparsed _ _ _ _ _ E). reflexivity. }
  split; [exact Hs|]. unfold replace_date. rewrite Hs. reflexivity.
Qed.

(** C3. A matched token that [strptime] refuses with a [ValueError] (it
    does not fit the format, or it names no day of the calendar) stays
    as it is in the output, one warning is logged, the generator is not
    touched, and the scan goes on with the rest of the line. *)
Theorem unparsed_token_kept date_str M fmt st rest :
  full_match date_regex date_str = true ->
  strptime date_str fmt = inl ValueError ->
  let st1 := mkpstate (random_state st)
               (logged st ++ [(WARNING, InvalidDate date_str)]) in
  shift_date date_str M fmt st = (None, st1) /\
  replace_date M fmt date_str st = (date_str, st1) /\
  re_sub (replace_date M fmt) (date_str ++ rest) st =
  (date_str ++ fst (re_sub (replace_date M fmt) rest st1),
   snd (re_sub (replace_date M fmt) rest st1)).
Proof.
  intros Hm E st1.
  destruct (replace_date_unparsed date_str M fmt st E) as [Hs Hr].
  repeat split; [exact Hs | exact Hr |].
  rewrite re_sub_match by exact Hm. rewrite Hr. reflexivity.
Qed.

(** One draw when the token parsed, none when it did not. *)
Lemma shift_date_draw tok M fmt st :
  0 <= M ->
  random_state (snd (shift_date tok M fmt st)) =
  if parses fmt tok then advance M (random_state st) else random_state st.
Proof.
  intros HM. unfold parses, shift_date.
  destruct (strptime tok fmt) as [e|d] eqn:E.
  - rewrite (shift_date_try_unparsed _ M _ _ _ E).
    destruct (is_ValueError e); reflexivity.
  - rewrite (shift_date_try_parsed _ M _ _ _ E) by exact HM.
    destruct (timedelta _) as [e|days]; [destruct (is_ValueError e); reflexivity|].
    destruct (date_add d days) as [e|sh]; [destruct (is_ValueError e); reflexivity|].
    reflexivity.
Qed.

(** The generator after a line: one draw for each match that parsed. *)
Lemma sub_segments_draws M fmt segs st :
  0 <= M ->
  random_state (snd (sub_segments (replace_date M fmt) segs st)) =
  Nat.iter
    (length (List.filter (fun g => match g with
                                   | Match tok => parses fmt tok
                                   | Copy _ => false
                                   end) segs))
    (advance M) (random_state st).
Proof.
  intros HM. revert st. induction segs as [|[c|tok] segs IH]; intros st;
    cbn [sub_segments List.filter].
  - reflexivity.
  - specialize (IH st).
    destruct (sub_segments (replace_date M fmt) segs st) as [out st1]. exact IH.
  - pose proof (replace_date_state M fmt tok st) as Hst.
    destruct (replace_date M fmt tok st) as [r st1]. cbn [snd] in Hst.
    specialize (IH st1).
    destruct (sub_segments (replace_date M fmt) segs st1) as [out st2].
    cbn [snd] in *. rewrite IH, Hst, shift_date_draw by exact HM.
    destruct (parses fmt tok); [|reflexivity].
    cbn [length]. rewrite Nat.iter_succ_r. reflexivity.
Qed.


(** What is not part of a match comes out as it went in. *)
Lemma sub_segments_kept {S : Type} (repl : text -> S -> text * S) segs st :
  exists outs, Forall2 kept segs outs /\ fst (sub_segments repl segs st) = concat outs.
Proof.
  revert st. induction segs as [|[c|tok] segs IH]; intros st; cbn.
  - exists []. split; [constructor|reflexivity].
  - destruct (IH st) as (outs & Hk & Ho).
    destruct (sub_segments repl segs st) as [out st1]. cbn in *.
    exists ([c] :: outs). split; [constructor; [reflexivity|exact Hk]|].
    cbn. rewrite Ho. reflexivity.
  - destruct (repl tok st) as [r st1].
    destruct (IH st1) as (outs & Hk & Ho).
    destruct (sub_segments repl segs st1) as [out st2]. cbn in *.
    exists (r :: outs). split; [constructor; [exact I|exact Hk]|].
    cbn. rewrite Ho. reflexivity.
Qed.

End TokenClaims.

(** ** The run, line by line *)

Section RunClaims.
Context `{UnicodeData} `{RandomGen} `{Platform}.

Lemma write_translate_app s t :
  write_translate (s ++ t) = write_translate s ++ write_translate t.
Proof. unfold write_translate. apply flat_map_app. Qed.

(** A loop that comes to its end has drawn once for each match that
    parsed, in all its lines. *)
Lemma write_lines_draws M fmt codec lines st out st' out' :
  0 <= M ->
  write_lines M fmt codec lines st out = (inr tt, st', out') ->
  random_state st' =
  Nat.iter (list_sum (map (parsed_matches fmt) lines)) (advance M) (random_state st).
Proof.
  intros HM. revert st out. induction lines as [|line lines IH]; intros st out; cbn.
  - intros [= <- _]. reflexivity.
  - pose proof (sub_segments_draws M fmt (scan line) st HM) as Hd.
    unfold re_sub.
    destruct (sub_segments (replace_date M fmt) (scan line) st) as [aline st1].
    cbn [snd] in Hd.
    destruct (forallb (can_encode codec) (write_translate aline)); [|discriminate].
    intros E. rewrite (IH _ _ E), Hd. unfold parsed_matches.
    symmetry. rewrite Nat.add_comm. apply Nat.iter_add.
Qed.

(** C5. With a positive maximum shift, a token that parses moves the
    generator by exactly one call of [randint], whatever becomes of the
    shift afterwards; a token that does not parse leaves the generator as
    it was.  So a line, and a run that reaches its end, draw once for
    each match that parsed. *)
Theorem draws_follow_parses M fmt :
  0 < M ->
  (forall tok st, parses fmt tok = true ->
     random_state (snd (shift_date tok M fmt st)) = advance M (random_state st)) /\
  (forall tok st, parses fmt tok = false ->
     random_state (snd (shift_date tok M fmt st)) = random_state st) /\
  (forall line st,
     random_state (snd (re_sub (replace_date M fmt) line st)) =
     Nat.iter (parsed_matches fmt line) (advance M) (random_state st)) /\
  (forall codec lines st out st' out',
     write_lines M fmt codec lines st out = (inr tt, st', out') ->
     random_state st' =
     Nat.iter (list_sum (map (parsed_matches fmt) lines)) (advance M) (random_state st)).
Proof.
  intros HM. repeat split.
  - intros tok st Hp. rewrite shift_date_draw by lia. rewrite Hp. reflexivity.
  - intros tok st Hp. rewrite shift_date_draw by lia. rewrite Hp. reflexivity.
  - intros line st. apply sub_segments_draws. lia.
  - intros codec lines st out st' out'. apply write_lines_draws. lia.
Qed.

(** C8. When the input path does not exist, or no encoding is given and
    none is detected, the run returns with an error logged as its last
    record and the file system as it was: the output file is neither
    opened nor created. *)
Theorem abort_before_output input output M seed fmt enc w :
  path_exists input w = false \/
  (enc = None /\ fst (detect_encoding input w) = None) ->
  let r := anonymize_data input output M seed fmt enc w in
  fst r = inr tt /\
  fs (snd r) = fs w /\
  exists new,
    stderr (snd r) =
    stderr w ++ new ++
      [(ERROR, if path_exists input w then EncodingUnknown else InputNotFound input)].
Proof.
  intros Hc. unfold anonymize_data.
  destruct (path_exists input w) eqn:Hex; cbn [negb].
  - destruct Hc as [Hc|[-> Hd]]; [discriminate|].
    unfold detect_encoding in *.
    destruct (open_read input w) as [e|[]]; cbn [fst snd] in *.
    + repeat split. exists [(ERROR, DetectFailed)]. cbn. rewrite <- app_assoc. reflexivity.
    + rewrite Hd. cbn. repeat split. exists []. reflexivity.
  - cbn. repeat split. exists []. reflexivity.
Qed.

(** C10. [main] returns on every path, and each failure leaves an error
    as the last record of the log: a maximum shift that is not positive,
    a missing input file, an encoding that is not found, and any
    exception raised between the opening of the files and the last line
    written. *)
Theorem main_always_returns a w :
  let r := main a w in
  let resolved :=
    match encoding a with
    | Some e => (Some e, w)
    | None => detect_encoding (input_file a) w
    end in
  fst r = inr tt /\
  (max_shift_days a <= 0 -> snd r = logging ERROR BadMaxShift w) /\
  (0 < max_shift_days a -> path_exists (input_file a) w = false ->
     snd r = logging ERROR (InputNotFound (input_file a)) w) /\
  (0 < max_shift_days a -> path_exists (input_file a) w = true ->
     fst resolved = None ->
     snd r = logging ERROR EncodingUnknown (snd resolved)) /\
  (forall e enc w',
     0 < max_shift_days a -> path_exists (input_file a) w = true ->
     fst resolved = Some enc ->
     anonymize_try (input_file a) (output_file a) (max_shift_days a) (seed a)
       (date_format a) enc (snd resolved) = (inl e, w') ->
     snd r = logging ERROR AnonymizeFailed w').
Proof.
  cbv zeta. unfold main, anonymize_data.
  destruct (Z.leb_spec (max_shift_days a) 0) as [HM|HM].
  { cbn. repeat split; intros; first [reflexivity | lia]. }
  destruct (path_exists (input_file a) w) eqn:Hex; cbn [negb].
  2:{ cbn. repeat split; intros; first [reflexivity | lia | discriminate]. }
  destruct (match encoding a with
            | Some e => (Some e, w)
            | None => detect_encoding (input_file a) w
            end) as [[enc|] w0]; cbn [fst snd].
  - destruct (anonymize_try (input_file a) (output_file a) (max_shift_days a)
                (seed a) (date_format a) enc w0) as [[e|[]] w'] eqn:E; cbn [fst snd].
    + repeat split; intros; try first [reflexivity | lia | discriminate].
      match goal with
      | Hs : Some _ = Some _, Ht : anonymize_try _ _ _ _ _ _ _ = _ |- _ =>
          injection Hs as <-; rewrite E in Ht; injection Ht as _ <-
      end.
      reflexivity.
    + repeat split; intros; try first [reflexivity | lia | discriminate].
      match goal with
      | Hs : Some _ = Some _, Ht : anonymize_try _ _ _ _ _ _ _ = _ |- _ =>
          injection Hs as <-; rewrite E in Ht; discriminate Ht
      end.
  - repeat split; intros; first [reflexivity | lia | discriminate].
Qed.

End RunClaims.

Section ContentClaims.
Context `{UnicodeData} `{RandomGen} `{Platform}.

Lemma concat_readlines s : concat (readlines s) = s.
Proof.
  induction s as [|c tl IH]; [reflexivity|]. cbn [readlines].
  destruct (c =? LF)%N.
  - cbn. rewrite IH. reflexivity.
  - destruct (readlines tl) as [|l ls]; cbn in *; rewrite <- IH; reflexivity.
Qed.

(** What a loop that comes to its end has written: each line, with its
    matches replaced, translated for the platform. *)
Lemma write_lines_kept M fmt codec lines st out st' out' :
  write_lines M fmt codec lines st out = (inr tt, st', out') ->
  exists outs,
    Forall2 (fun line os => Forall2 kept (scan line) os) lines outs /\
    out' = out ++ write_translate (concat (map (@concat _) outs)).
Proof.
  revert st out. induction lines as [|line lines IH]; intros st out; cbn [write_lines].
  - intros [= _ <-]. exists []. split; [constructor|]. cbn. rewrite app_nil_r. reflexivity.
  - unfold re_sub.
    destruct (sub_segments_kept (replace_date M fmt) (scan line) st) as (os & Hk & Ho).
    destruct (sub_segments (replace_date M fmt) (scan line) st) as [aline st1].
    cbn [fst] in Ho. subst aline.
    destruct (forallb (can_encode codec) (write_translate (concat os))); [|discriminate].
    intros E. destruct (IH _ _ E) as (outs & Hks & ->).
    exists (os :: outs). split; [constructor; assumption|].
    cbn [map concat]. rewrite write_translate_app, app_assoc. reflexivity.
Qed.

(** C6, amended. In a run that reaches its end, with the output written
    to another path than the input, the text read is the decoded input
    with [\\r\\n] and [\\r] turned into [\\n]; it is cut into lines, each
    line into the matches and the characters between them, and each of
    these characters is written as it was read, a [\\n] as the line
    separator of the platform.  Only the matches, and the line
    terminators, may differ between input and output. *)
Theorem content_kept_outside_matches input output M seed fmt enc codec data w w' :
  input <> output ->
  codecs_lookup enc = Some codec ->
  fs w !! input = Some (Regular data) ->
  anonymize_try input output M seed fmt enc w = (inr tt, w') ->
  exists outs,
    concat (readlines (universal_newlines (decode codec data))) =
      universal_newlines (decode codec data) /\
    Forall2 (fun line os =>
               concat (map source (scan line)) = line /\
               Forall2 kept (scan line) os)
      (readlines (universal_newlines (decode codec data))) outs /\
    fs w' !! output =
    Some (Regular match write_translate (concat (map (@concat _) outs)) with
                  | [] => []
                  | _ :: _ => encode codec (write_translate (concat (map (@concat _) outs)))
                  end).
Proof.
  intros Hne Hcodec Hin. unfold anonymize_try, open_read, open_write.
  rewrite Hin, Hcodec.
  assert (Hgo : with_files input output M seed fmt codec (set_file output [] w) = (inr tt, w') ->
    exists outs,
      concat (readlines (universal_newlines (decode codec data))) =
        universal_newlines (decode codec data) /\
      Forall2 (fun line os =>
                 concat (map source (scan line)) = line /\
                 Forall2 kept (scan line) os)
        (readlines (universal_newlines (decode codec data))) outs /\
      fs w' !! output =
      Some (Regular match write_translate (concat (map (@concat _) outs)) with
                    | [] => []
                    | _ :: _ => encode codec (write_translate (concat (map (@concat _) outs)))
                    end)).
  { unfold with_files.
    assert (Hrd : read_bytes input (set_file output [] w) = data).
    { unfold read_bytes, set_file. cbn [fs].
      rewrite lookup_insert_ne by congruence. rewrite Hin. reflexivity. }
    rewrite Hrd.
    destruct (write_lines M fmt codec _ _ []) as [[r st'] out] eqn:E.
    intros [= -> <-].
    destruct (write_lines_kept _ _ _ _ _ _ _ _ E) as (outs & Hk & ->).
    exists outs. split; [apply concat_readlines|]. split.
    - eapply Forall2_impl; [exact Hk|]. intros line os Hl.
      split; [apply concat_source_scan|exact Hl].
    - cbn [fs app]. rewrite lookup_insert_eq. reflexivity. }
  destruct (fs w !! output) as [[odata|]|]; try discriminate; [exact Hgo|].
  destruct (creatable w output); [exact Hgo|discriminate].
Qed.

End ContentClaims.

(** ** Parsing and printing *)

Section FormatFacts.
Context `{UnicodeData}.

Lemma digit_value_digit_char v : digit_value (digit_char v) = Some (v mod 10).
Proof.
  unfold digit_value, digit_char.
  pose proof (Z.mod_pos_bound v 10 ltac:(lia)) as Hb.
  replace ((48 <=? Z.to_N (48 + v mod 10)) && (Z.to_N (48 + v mod 10) <=? 57))%N
    with true.
  - f_equal. lia.
  - symmetry. apply andb_true_intro. split; apply N.leb_le; lia.
Qed.

Lemma is_digit_digit_char v : is_digit (digit_char v) = true.
Proof. unfold is_digit. rewrite digit_value_digit_char. reflexivity. Qed.

Lemma digit_char_not_space v : (digit_char v =? SPACE)%N = false.
Proof.
  unfold digit_char, SPACE. apply N.eqb_neq.
  pose proof (Z.mod_pos_bound v 10 ltac:(lia)). intros E.
  apply (f_equal Z.of_N) in E. rewrite Z2N.id in E by lia. lia.
Qed.

Lemma py_int_zfill4 y : 0 <= y <= 9999 -> py_int (zfill4 y) = y.
Proof.
  intros Hy. unfold py_int, zfill4. rewrite digit_char_not_space.
  unfold int_digits. cbn [fold_left]. rewrite !digit_value_digit_char. cbn [default].
  change 1000 with (10 * (10 * 10)). change 100 with (10 * 10).
  rewrite <- !Z.div_div by lia. unfold id.
  Z.div_mod_to_equations. lia.
Qed.

Lemma py_int_zfill2 n : 0 <= n <= 99 -> py_int (zfill2 n) = n.
Proof.
  intros Hn. unfold py_int, zfill2. rewrite digit_char_not_space.
  unfold int_digits. cbn [fold_left]. rewrite !digit_value_digit_char. cbn [default].
  unfold id. Z.div_mod_to_equations. lia.
Qed.

(** [%Y] reads the four digits [strftime] printed. *)
Lemma re_match_year y items rest :
  re_match (FDir dY :: items) (zfill4 y ++ rest) =
  match re_match items rest with
  | Some (gs, r) => Some ((dY, zfill4 y) :: gs, r)
  | None => None
  end.
Proof.
  unfold zfill4. cbn [re_match directive_re match_seq app cls_match].
  rewrite !is_digit_digit_char. reflexivity.
Qed.

(** [-%m-%d] reads the month and the day [strftime] printed. *)
Lemma re_match_month_day m d :
  1 <= m <= 12 -> 1 <= d <= 31 ->
  re_match [FLit 45%N; FDir dm; FLit 45%N; FDir dd]
    (45%N :: zfill2 m ++ 45%N :: zfill2 d) =
  Some ([(dm, zfill2 m); (dd, zfill2 d)], []).
Proof.
  intros Hm Hd.
  assert (Hmc : m = 1 \/ m = 2 \/ m = 3 \/ m = 4 \/ m = 5 \/ m = 6 \/ m = 7 \/
                m = 8 \/ m = 9 \/ m = 10 \/ m = 11 \/ m = 12) by lia.
  assert (Hdc : (d = 1 \/ d = 2 \/ d = 3 \/ d = 4 \/ d = 5 \/ d = 6 \/ d = 7 \/
                 d = 8 \/ d = 9 \/ d = 10) \/
                (d = 11 \/ d = 12 \/ d = 13 \/ d = 14 \/ d = 15 \/ d = 16 \/
                 d = 17 \/ d = 18 \/ d = 19 \/ d = 20) \/
                (d = 21 \/ d = 22 \/ d = 23 \/ d = 24 \/ d = 25 \/ d = 26 \/
                 d = 27 \/ d = 28 \/ d = 29 \/ d = 30 \/ d = 31)) by lia.
  clear Hm Hd.
  destruct Hmc as [->|[->|[->|[->|[->|[->|[->|[->|[->|[->|[->| ->]]]]]]]]]]];
    destruct Hdc as [[->|[->|[->|[->|[->|[->|[->|[->|[->| ->]]]]]]]]]
                    |[[->|[->|[->|[->|[->|[->|[->|[->|[->| ->]]]]]]]]]
                    |[->|[->|[->|[->|[->|[->|[->|[->|[->|[->| ->]]]]]]]]]]]];
    vm_compute; reflexivity.
Qed.

(** A date prints, under the default format, to a string that parses
    back to it. *)
Lemma strptime_strftime_default d :
  Calendar.valid_date d = true ->
  strptime (strftime d default_format) default_format = inr d.
Proof.
  intros V. pose proof V as V'. unfold Calendar.valid_date in V'.
  repeat (apply andb_prop in V' as [V' ?]).
  repeat match goal with
         | Hx : (_ <=? _) = true |- _ => apply Z.leb_le in Hx
         end.
  unfold Calendar.MINYEAR, Calendar.MAXYEAR in *.
  assert (Hday : Calendar.day d <= 31).
  { unfold Calendar._days_in_month in *.
    destruct ((Calendar.month d =? 2) && Calendar._is_leap (Calendar.year d)); [lia|].
    assert (Calendar._DAYS_IN_MONTH (Calendar.month d) <= 31); [|lia].
    assert (Hmc : Calendar.month d = 1 \/ Calendar.month d = 2 \/
                  Calendar.month d = 3 \/ Calendar.month d = 4 \/
                  Calendar.month d = 5 \/ Calendar.month d = 6 \/
                  Calendar.month d = 7 \/ Calendar.month d = 8 \/
                  Calendar.month d = 9 \/ Calendar.month d = 10 \/
                  Calendar.month d = 11 \/ Calendar.month d = 12) by lia.
    repeat (destruct Hmc as [E|Hmc]; [rewrite E; cbn; lia|]).
    rewrite Hmc; cbn; lia. }
  unfold strptime.
  change (existsb is_bad default_format) with false.
  change (has_dup default_format) with false. cbv iota.
  unfold strftime, default_format. cbn [flat_map render app].
  change (zfill4 (Calendar.year d) ++
          45%N :: zfill2 (Calendar.month d) ++ 45%N :: zfill2 (Calendar.day d) ++ [])
    with (zfill4 (Calendar.year d) ++
          (45%N :: zfill2 (Calendar.month d) ++ 45%N :: (zfill2 (Calendar.day d) ++ []))).
  rewrite app_nil_r, re_match_year, re_match_month_day by lia.
  cbn [fold_left set_field fst snd f_year f_month f_day f_hour f_minute f_second fields0].
  rewrite py_int_zfill4, !py_int_zfill2 by lia. cbn [default].
  destruct d as [y m dd]. cbn [Calendar.year Calendar.month Calendar.day] in *.
  unfold id. rewrite V. reflexivity.
Qed.

End FormatFacts.

Section FormatClaims.
Context `{UnicodeData} `{RandomGen}.


(** The shape of a match. *)
Lemma date_shape_inv tok :
  full_match date_regex tok = true ->
  exists c0 c1 c2 c3 c5 c6 c8 c9,
    tok = [c0; c1; c2; c3; 45%N; c5; c6; 45%N; c8; c9] /\
    is_digit c0 = true /\ is_digit c1 = true /\ is_digit c2 = true /\
    is_digit c3 = true /\ is_digit c5 = true /\ is_digit c6 = true /\
    is_digit c8 = true /\ is_digit c9 = true.
Proof.
  intros Hm. pose proof (full_match_length _ _ Hm) as Hl.
  do 10 (destruct tok as [|? tok]; [discriminate Hl|]).
  destruct tok; [|discriminate Hl]. clear Hl.
  unfold full_match, date_regex in Hm. cbn [match_seq cls_match] in Hm.
  repeat match type of Hm with
         | context [if ?b then _ else _] =>
             let E := fresh "E" in destruct b eqn:E; [|discriminate Hm]
         end.
  repeat match goal with
         | Hx : (HYPHEN =? _)%N = true |- _ => apply N.eqb_eq in Hx; unfold HYPHEN in Hx; subst
         end.
  do 8 eexists. repeat split; eassumption.
Qed.

Lemma digit_not_slash c : is_digit c = true -> lit_match 47%N c = false.
Proof.
  unfold is_digit, digit_value, lit_match, lower. intros Hd.
  apply N.eqb_neq. intros E.
  destruct ((65 <=? c) && (c <=? 90))%N eqn:Hu.
  - apply andb_prop in Hu as [Hu1 Hu2]. apply N.leb_le in Hu1, Hu2.
    cbn in E. lia.
  - cbn in E. subst c. discriminate Hd.
Qed.

(** A directive followed by a literal that no alternative of the
    directive leaves in front. *)
Lemma re_match_dir_lit_fail d c items s :
  (forall alt g rest, In alt (directive_re d) -> match_seq alt s = Some (g, rest) ->
     match rest with x :: _ => lit_match c x = false | [] => True end) ->
  re_match (FDir d :: FLit c :: items) s = None.
Proof.
  cbn [re_match]. generalize (directive_re d) as alts.
  induction alts as [|alt alts IH]; intros Hall; [reflexivity|].
  destruct (match_seq alt s) as [[g rest]|] eqn:E.
  - pose proof (Hall alt g rest (or_introl eq_refl) E) as Hr.
    destruct rest as [|x rest]; [|rewrite Hr];
      apply IH; intros a g' r' Hin; apply Hall; right; exact Hin.
  - apply IH. intros a g' r' Hin. apply Hall. right. exact Hin.
Qed.

(** No token of the shape parses under [%d/%m/%Y]. *)
Lemma strptime_dmy_fails tok :
  full_match date_regex tok = true -> strptime tok dmy_format = inl ValueError.
Proof.
  intros Hm.
  destruct (date_shape_inv _ Hm)
    as (c0 & c1 & c2 & c3 & c5 & c6 & c8 & c9 & -> & H0' & H1' & H2' & _).
  unfold strptime.
  change (existsb is_bad dmy_format) with false.
  change (has_dup dmy_format) with false. cbv iota.
  assert (E : re_match dmy_format [c0; c1; c2; c3; 45%N; c5; c6; 45%N; c8; c9] = None).
  { unfold dmy_format. apply re_match_dir_lit_fail.
    intros alt g rest Hin Hseq.
    destruct (match_seq_split _ _ _ _ Hseq) as [Hs Hl].
    cbn [directive_re In] in Hin.
    destruct Hin as [<-|[<-|[<-|[<-|[<-|[]]]]]]; cbn [length] in Hl;
      repeat (destruct g as [|? g]; try discriminate Hl);
      cbn [app] in Hs; inversion Hs; subst; cbv iota;
      apply digit_not_slash; assumption. }
  rewrite E. reflexivity.
Qed.


End FormatClaims.

(** ** The program on the sample platform *)

Module Runs.
Import Sample.

Definition visit : list byte :=
  bytes_of_string "Visit on 2023-06-15 and again on 2023-07-01.".

Definition world_a : world := world0 [("in.txt"%string, Regular visit)].

(** Another world with the same input file: one more file, other
    entropy, a log that is not empty. *)
Definition world_b : world :=
  mkworld (<["notes.txt"%string := Regular visit]> (fs world_a))
          (fun _ => true) [x01; x02] [(ERROR, BadMaxShift)].

Definition st42 : pstate := mkpstate (seeded 42) [].
Definition st5 : pstate := mkpstate (seeded 5) [].

Definition crlf : list byte := [x61; x0d; x0a; x62].   (* a, CR, LF, b *)
Definition world_crlf : world := world0 [("in.txt"%string, Regular crlf)].


Lemma shift_within_max_shift_witness :
  exists date_obj shift_days shifted,
    strptime (text_of_string "2023-06-15") default_format = inr date_obj /\
    randint (- 10) 10 (random_state st42) = (shift_days, advance 10 (seeded 42)) /\
    - 10 <= shift_days <= 10 /\
    date_add date_obj shift_days = inr shifted /\
    text_of_string "2023-06-05" = strftime shifted default_format /\
    Calendar.toordinal shifted - Calendar.toordinal date_obj = shift_days /\
    Z.abs (Calendar.toordinal shifted - Calendar.toordinal date_obj) <= 10.
Proof.
  apply (shift_within_max_shift (text_of_string "2023-06-15") 10 default_format
           st42 (text_of_string "2023-06-05") (mkpstate (advance 10 (seeded 42)) [])).
  reflexivity.
Defined.

Lemma unparsed_token_kept_witness :
  shift_date (text_of_string "2023-02-30") 10 default_format st42 =
    (None, mkpstate (random_state st42)
             (logged st42 ++ [(WARNING, InvalidDate (text_of_string "2023-02-30"))])) /\
  replace_date 10 default_format (text_of_string "2023-02-30") st42 =
    (text_of_string "2023-02-30",
     mkpstate (random_state st42)
       (logged st42 ++ [(WARNING, InvalidDate (text_of_string "2023-02-30"))])) /\
  re_sub (replace_date 10 default_format)
    (text_of_string "2023-02-30" ++ text_of_string " and 2023-06-15") st42 =
  (text_of_string "2023-02-30" ++
     fst (re_sub (replace_date 10 default_format) (text_of_string " and 2023-06-15")
            (mkpstate (random_state st42)
               (logged st42 ++ [(WARNING, InvalidDate (text_of_string "2023-02-30"))]))),
   snd (re_sub (replace_date 10 default_format) (text_of_string " and 2023-06-15")
          (mkpstate (random_state st42)
             (logged st42 ++ [(WARNING, InvalidDate (text_of_string "2023-02-30"))])))).
Proof.
  apply (unparsed_token_kept (text_of_string "2023-02-30") 10 default_format st42
           (text_of_string " and 2023-06-15"));
    reflexivity.
Defined.



Lemma draws_follow_parses_witness :
  random_state
    (snd (re_sub (replace_date 10 default_format)
            (text_of_string "2023-06-15, 2023-02-30, 2023-07-01") st42)) =
  Nat.iter (parsed_matches default_format
              (text_of_string "2023-06-15, 2023-02-30, 2023-07-01"))
    (advance 10) (random_state st42).
Proof.
  apply (proj1 (proj2 (proj2 (draws_follow_parses 10 default_format ltac:(lia))))).
Defined.

(** C6, the claim as it stands: the input a CR LF b holds no match, and
    the output is a LF b. *)
Lemma crlf_not_kept :
  Forall (fun g => match g with Copy _ => True | Match _ => False end)
    (scan (universal_newlines (decode latin_1 crlf))) /\
  fs (snd (anonymize_data "in.txt" "out.txt" 10 (Some 42) default_format
             (Some "latin-1"%string) world_crlf)) !! "out.txt"%string =
    Some (Regular [x61; x0a; x62]) /\
  [x61; x0a; x62] <> crlf.
Proof.
  split; [|split].
  - change (scan (universal_newlines (decode latin_1 crlf)))
      with [Copy 97%N; Copy 10%N; Copy 98%N].
    repeat constructor.
  - reflexivity.
  - discriminate.
Qed.

Lemma content_kept_outside_matches_witness :
  exists outs,
    concat (readlines (universal_newlines (decode latin_1 visit))) =
      universal_newlines (decode latin_1 visit) /\
    Forall2 (fun line os =>
               concat (map source (scan line)) = line /\
               Forall2 kept (scan line) os)
      (readlines (universal_newlines (decode latin_1 visit))) outs /\
    fs (snd (anonymize_try "in.txt" "out.txt" 10 (Some 42) default_format
               "latin-1" world_a)) !! "out.txt"%string =
    Some (Regular match write_translate (concat (map (@concat _) outs)) with
                  | [] => []
                  | _ :: _ =>
                      encode latin_1 (write_translate (concat (map (@concat _) outs)))
                  end).
Proof.
  apply (content_kept_outside_matches "in.txt" "out.txt" 10 (Some 42) default_format
           "latin-1" latin_1 visit world_a).
  - discriminate.
  - reflexivity.
  - reflexivity.
  - reflexivity.
Defined.



Lemma abort_before_output_witness :
  fst (anonymize_data "missing.txt" "out.txt" 10 (Some 42) default_format None world_a)
    = inr tt /\
  fs (snd (anonymize_data "missing.txt" "out.txt" 10 (Some 42) default_format None
             world_a)) = fs world_a /\
  exists new,
    stderr (snd (anonymize_data "missing.txt" "out.txt" 10 (Some 42) default_format
                   None world_a)) =
    stderr world_a ++ new ++
      [(ERROR, if path_exists "missing.txt" world_a
               then EncodingUnknown else InputNotFound "missing.txt")].
Proof.
  apply (abort_before_output "missing.txt" "out.txt" 10 (Some 42) default_format
           None world_a).
  left. reflexivity.
Defined.


(** The format strings of the formats above, as [parse_format] reads
    them; [%j] is outside the directives modelled. *)
Example parse_default_format :
  parse_format (text_of_string "%Y-%m-%d") = Some default_format /\
  parse_format (text_of_string "%d/%m/%Y") = Some dmy_format /\
  parse_format (text_of_string "%Y-%d-%m") = Some ydm_format /\
  parse_format (text_of_string "%H%M-%m-%d") = Some hm_format /\
  parse_format (text_of_string "%Y-%j") = None.
Proof. repeat split; reflexivity. Qed.

(** Digits that are not ASCII are digits to the scanner and to
    [strptime]; the date is printed in ASCII digits. *)
Example arabic_indic_token :
  fst (re_sub (replace_date 10 default_format)
         ([1634; 1632; 1634; 1635]%N ++ text_of_string "-06-15") st42) =
  text_of_string "2023-06-05".
Proof. reflexivity. Qed.

(** The line of C9 as the program writes it. *)
Example embedded_token_run :
  fst (re_sub (replace_date 10 default_format) (text_of_string "12023-01-0212") st5) =
  text_of_string "12022-12-2812".
Proof. reflexivity. Qed.

End Runs.

(** * Further properties of the program *)

Section MoreTokenFacts.
Context `{UnicodeData} `{RandomGen}.

(** The date printed by [date + timedelta] is a date of the calendar. *)
Lemma date_add_inv d k sh :
  date_add d k = inr sh ->
  0 < Calendar.toordinal d + k <= Calendar._MAXORDINAL /\
  sh = Calendar.fromordinal (Calendar.toordinal d + k).
Proof.
  unfold date_add.
  destruct (Z.ltb_spec 0 (Calendar.toordinal d + k)); [|discriminate].
  destruct (Z.leb_spec (Calendar.toordinal d + k) Calendar._MAXORDINAL); [|discriminate].
  cbn. intros E. split; [lia|]. congruence.
Qed.

(** [date + timedelta(days=k)] either raises [OverflowError] or gives a
    valid date of the calendar exactly [k] days away, across the ends of
    months and years and through leap years. *)
Theorem date_add_valid d k sh :
  date_add d k = inr sh ->
  Calendar.valid_date sh = true /\
  Calendar.toordinal sh = Calendar.toordinal d + k.
Proof.
  intros E. destruct (date_add_inv _ _ _ E) as [Hord ->].
  split; [apply fromordinal_valid; lia | apply toordinal_fromordinal].
Qed.

(** A token that parses but whose shifted date is outside the years 1
    to 9999 is left as it is: [shift_date] logs an ERROR, not a warning,
    and the draw is spent. *)
Theorem overflow_token_kept tok M fmt st d :
  strptime tok fmt = inr d -> 0 <= M ->
  ~ (0 < Calendar.toordinal d + fst (randint (- M) M (random_state st))
       <= Calendar._MAXORDINAL) ->
  shift_date tok M fmt st =
    (None, mkpstate (advance M (random_state st))
             (logged st ++ [(ERROR, ShiftFailed tok)])) /\
  replace_date M fmt tok st =
    (tok, mkpstate (advance M (random_state st))
            (logged st ++ [(ERROR, ShiftFailed tok)])).
Proof.
  intros Hd HM Hout.
  assert (Hs : shift_date tok M fmt st =
    (None, mkpstate (advance M (random_state st))
             (logged st ++ [(ERROR, ShiftFailed tok)]))).
  { unfold shift_date. rewrite (shift_date_try_parsed _ M _ _ _ Hd) by exact HM.
    unfold timedelta, date_add.
    destruct (Z.abs _ <=? 999999999); [|reflexivity].
    destruct (Z.ltb_spec 0 (Calendar.toordinal d + fst (randint (- M) M (random_state st))));
      [|reflexivity].
    destruct (Z.leb_spec (Calendar.toordinal d + fst (randint (- M) M (random_state st)))
                Calendar._MAXORDINAL); [|reflexivity].
    exfalso. apply Hout. lia. }
  split; [exact Hs|]. unfold replace_date. rewrite Hs. reflexivity.
Qed.

(** Called with a negative maximum shift, [shift_date] shifts nothing:
    [randint] refuses the empty range with a [ValueError], so a token
    that parses is reported as an invalid date and no draw is made. *)
Theorem negative_max_shift_warns tok M fmt st d :
  M < 0 -> strptime tok fmt = inr d ->
  shift_date tok M fmt st =
  (None, mkpstate (random_state st) (logged st ++ [(WARNING, InvalidDate tok)])).
Proof.
  intros HM Hd. unfold shift_date, shift_date_try, bind, lift, py_randint.
  rewrite Hd. replace (M <? - M) with true by (symmetry; apply Z.ltb_lt; lia).
  reflexivity.
Qed.

(** A line in which no window of ten characters has the shape goes
    through the scanner as it is, and the callback is never called. *)
Theorem no_match_line_unchanged {St : Type} (repl : text -> St -> text * St) line st :
  (forall i, full_match date_regex (take 10 (drop i line)) = false) ->
  re_sub repl line st = (line, st).
Proof.
  induction line as [|c tl IH]; intros Hno; [reflexivity|].
  rewrite re_sub_copy by exact (Hno 0%nat).
  rewrite IH; [reflexivity|]. intros i. exact (Hno (S i)).
Qed.

Lemma strftime_default_shape d :
  full_match date_regex (strftime d default_format) = true.
Proof.
  unfold strftime, default_format, full_match, date_regex.
  cbn [flat_map render]. unfold zfill4, zfill2.
  cbn [app match_seq cls_match].
  rewrite !is_digit_digit_char. reflexivity.
Qed.

Lemma shift_date_default_shape tok M st s st' :
  shift_date tok M default_format st = (Some s, st') ->
  full_match date_regex s = true /\ length s = 10%nat.
Proof.
  intros Hs. destruct (shift_date_some _ _ _ _ _ _ Hs) as (d & k & _ & _ & _ & _ & ->).
  pose proof (strftime_default_shape
                (Calendar.fromordinal (Calendar.toordinal d + k))) as Hm.
  split; [exact Hm | apply (full_match_length _ _ Hm)].
Qed.


Lemma replace_date_default_length tok M st :
  length tok = 10%nat ->
  length (fst (replace_date M default_format tok st)) = 10%nat.
Proof.
  intros Hl. unfold replace_date.
  destruct (shift_date tok M default_format st) as [[[|c s]|] st'] eqn:E;
    cbn [fst]; try exact Hl.
  apply (shift_date_default_shape _ _ _ _ _ E).
Qed.


Lemma parsed_matches_match fmt tok rest :
  full_match date_regex tok = true ->
  parsed_matches fmt (tok ++ rest) =
  ((if parses fmt tok then 1 else 0) + parsed_matches fmt rest)%nat.
Proof.
  intros Hm. unfold parsed_matches. rewrite scan_match by exact Hm.
  cbn [List.filter]. destruct (parses fmt tok); reflexivity.
Qed.

Lemma parsed_matches_copy fmt c tl :
  full_match date_regex (take 10 (c :: tl)) = false ->
  parsed_matches fmt (c :: tl) = parsed_matches fmt tl.
Proof.
  intros Hm. unfold parsed_matches. rewrite scan_copy by exact Hm. reflexivity.
Qed.

Lemma re_sub_no_parse M fmt line st :
  parsed_matches fmt line = 0%nat ->
  fst (re_sub (replace_date M fmt) line st) = line /\
  random_state (snd (re_sub (replace_date M fmt) line st)) = random_state st.
Proof.
  revert st. induction line as [| c tl E IH | tok rest E IH] using scan_ind;
    intros st Hp.
  - split; reflexivity.
  - rewrite parsed_matches_copy in Hp by exact E.
    rewrite re_sub_copy by exact E. cbn [fst snd].
    destruct (IH st Hp) as [-> ->]. split; reflexivity.
  - rewrite parsed_matches_match in Hp by exact E.
    unfold parses in Hp. destruct (strptime tok fmt) as [e|d] eqn:Es; [|discriminate].
    cbn in Hp. rewrite re_sub_match by exact E.
    pose proof (shift_date_unparsed tok M fmt st e Es) as Hs.
    assert (Hr : replace_date M fmt tok st = (tok, snd (shift_date tok M fmt st))).
    { unfold replace_date. rewrite Hs. reflexivity. }
    rewrite Hr. cbn [fst snd].
    destruct (IH (snd (shift_date tok M fmt st)) Hp) as [-> ->].
    rewrite Hs. split; reflexivity.
Qed.

(** A line none of whose matches parses under the format comes out as
    it went in, with the generator untouched, whatever the maximum
    shift. *)
Theorem unparsed_line_unchanged M fmt line st :
  parsed_matches fmt line = 0%nat ->
  fst (re_sub (replace_date M fmt) line st) = line /\
  random_state (snd (re_sub (replace_date M fmt) line st)) = random_state st.
Proof. apply re_sub_no_parse. Qed.

(** A format with a stray [%] or an unknown directive makes the filter a
    copy: no token parses, every line is unchanged. *)
Theorem bad_format_copies M fmt line st :
  existsb is_bad fmt = true ->
  fst (re_sub (replace_date M fmt) line st) = line /\
  random_state (snd (re_sub (replace_date M fmt) line st)) = random_state st /\
  parsed_matches fmt line = 0%nat.
Proof.
  intros Hb.
  assert (Hp : parsed_matches fmt line = 0%nat).
  { induction line as [| c tl E IH | tok rest E IH] using scan_ind.
    - reflexivity.
    - rewrite parsed_matches_copy by exact E. exact IH.
    - rewrite parsed_matches_match by exact E. rewrite IH.
      unfold parses, strptime. rewrite Hb. reflexivity. }
  destruct (re_sub_no_parse M fmt line st Hp) as [H1 H2]. auto.
Qed.

End MoreTokenFacts.

Section MoreRunFacts.
Context `{UnicodeData} `{RandomGen} `{Platform}.

Lemma universal_newlines_no_cr_upto n s :
  (length s <= n)%nat -> Forall (fun c => c <> CR) (universal_newlines s).
Proof.
  revert s. induction n as [|n IH]; intros s Hl.
  - destruct s; [constructor | cbn in Hl; lia].
  - destruct s as [|c tl]; [constructor|]. cbn [universal_newlines].
    cbn [length] in Hl.
    destruct (N.eqb_spec c CR) as [->|Hc].
    + constructor; [discriminate|].
      destruct tl as [|c' tl']; [constructor|]. cbn [length] in Hl.
      destruct (c' =? LF)%N; apply IH; cbn [length]; lia.
    + constructor; [exact Hc|]. apply IH. lia.
Qed.

(** The text read from the input holds no carriage return: [\\r\\n] and
    [\\r] have become [\\n], and text without [\\r] is read as it is. *)
Theorem universal_newlines_no_cr s :
  Forall (fun c => c <> CR) (universal_newlines s) /\
  (Forall (fun c => c <> CR) s -> universal_newlines s = s).
Proof.
  split; [apply (universal_newlines_no_cr_upto (length s)); lia|].
  induction s as [|c tl IH]; [reflexivity|].
  intros Hs. inversion Hs as [|? ? Hc Htl]; subst. cbn [universal_newlines].
  destruct (N.eqb_spec c CR) as [->|_]; [contradiction|].
  rewrite IH by exact Htl. reflexivity.
Qed.

(** The lines of [for line in infile]: none is empty, and a [\\n] is the
    last character of its line. *)
Theorem readlines_lines s :
  Forall (fun line =>
            line <> [] /\
            forall pre c post, line = pre ++ c :: post -> c = LF -> post = [])
    (readlines s).
Proof.
  induction s as [|c tl IH]; [constructor|]. cbn [readlines].
  destruct (N.eqb_spec c LF) as [->|Hc].
  - constructor; [|exact IH]. split; [discriminate|].
    intros pre c post E _. destruct pre as [|? [|? ?]]; cbn in E; congruence.
  - destruct (readlines tl) as [|l ls]; inversion IH as [|? ? [Hl Hlf] Hls]; subst.
    + constructor; [|constructor]. split; [discriminate|].
      intros pre c' post E Ec. destruct pre as [|? [|? ?]]; cbn in E; congruence.
    + constructor; [|exact Hls]. split; [discriminate|].
      intros pre c' post E Ec. destruct pre as [|x pre]; cbn in E.
      * congruence.
      * injection E as _ E. exact (Hlf pre c' post E Ec).
Qed.

(** No file but the output file is written: every other path, the input
    file among them, is after the run what it was before. *)
Theorem other_files_untouched input output M seed fmt enc w p :
  p <> output ->
  fs (snd (anonymize_data input output M seed fmt enc w)) !! p = fs w !! p.
Proof.
  intros Hp. unfold anonymize_data.
  destruct (path_exists input w); cbn [negb]; [|reflexivity].
  assert (Htry : forall e w0, fs w0 !! p = fs w !! p ->
    fs (snd (anonymize_try input output M seed fmt e w0)) !! p = fs w !! p).
  { intros e w0 Hw0. unfold anonymize_try.
    destruct (open_read input w0); [exact Hw0|].
    destruct (codecs_lookup e) as [codec|]; [|exact Hw0].
    assert (Hwf : fs (snd (with_files input output M seed fmt codec
                             (set_file output [] w0))) !! p = fs w !! p).
    { unfold with_files.
      destruct (write_lines M fmt codec _ _ []) as [[r st'] out].
      cbn [snd fs set_file]. rewrite !lookup_insert_ne by congruence. exact Hw0. }
    unfold open_write.
    destruct (fs w0 !! output) as [[odata|]|]; try exact Hw0; [exact Hwf|].
    destruct (creatable w0 output); [exact Hwf|exact Hw0]. }
  assert (Hk : forall (e : option string) w0, fs w0 !! p = fs w !! p ->
    fs (snd match e with
            | Some e0 =>
                let (s0, w') := anonymize_try input output M seed fmt e0 w0 in
                match s0 with
                | inl _ => (@inr exn unit tt, logging ERROR AnonymizeFailed w')
                | inr _ => (inr tt, logging INFO (Anonymized input output) w')
                end
            | None => (inr tt, logging ERROR EncodingUnknown w0)
            end) !! p = fs w !! p).
  { intros [e|] w0 Hw0; [|exact Hw0].
    specialize (Htry e w0 Hw0).
    destruct (anonymize_try input output M seed fmt e w0) as [[x|x] w']; exact Htry. }
  destruct enc as [e|]; [apply (Hk (Some e)); reflexivity|].
  unfold detect_encoding.
  destruct (open_read input w); cbv beta iota;
    [apply (Hk None) | apply (Hk (chardet_detect (read_bytes input w)))];
    reflexivity.
Qed.

(** When the codec is not known, or one of the two files cannot be
    opened, the run ends with the error logged and the file system as it
    was: an output file that exists is not emptied. *)
Theorem failed_open_leaves_files input output M seed fmt enc w :
  path_exists input w = true ->
  codecs_lookup enc = None \/
  fs w !! input = Some Refused \/
  fs w !! output = Some Refused \/
  (fs w !! output = None /\ creatable w output = false) ->
  anonymize_data input output M seed fmt (Some enc) w =
  (inr tt, logging ERROR AnonymizeFailed w).
Proof.
  intros Hex Hc. unfold anonymize_data. rewrite Hex. cbn [negb].
  assert (Ht : exists e, anonymize_try input output M seed fmt enc w = (inl e, w)).
  { unfold anonymize_try, open_read, open_write.
    destruct (fs w !! input) as [[data|]|] eqn:Ein; eauto.
    destruct (codecs_lookup enc) as [codec|]; eauto.
    destruct Hc as [Hc|[Hc|[Hc|[Hc1 Hc2]]]]; [discriminate|discriminate| |].
    - rewrite Hc. eauto.
    - rewrite Hc1, Hc2. eauto. }
  destruct Ht as [e ->]. reflexivity.
Qed.

(** Input and output at one path: the file is emptied by the opening
    for writing before its first line is read, the loop sees no line,
    and the run reports success over an empty file. *)
Theorem same_path_empties_file p M seed fmt enc codec data w :
  fs w !! p = Some (Regular data) ->
  codecs_lookup enc = Some codec ->
  decode codec [] = [] ->
  fst (anonymize_data p p M seed fmt (Some enc) w) = inr tt /\
  fs (snd (anonymize_data p p M seed fmt (Some enc) w)) !! p = Some (Regular []) /\
  stderr (snd (anonymize_data p p M seed fmt (Some enc) w)) =
    stderr w ++ [(INFO, Anonymized p p)].
Proof.
  intros Hin Hcodec Hdec. unfold anonymize_data, path_exists. rewrite Hin. cbn [negb].
  assert (Ht : anonymize_try p p M seed fmt enc w =
    (inr tt, mkworld (<[p := Regular []]> (fs (set_file p [] w)))
               (creatable w) (urandom w) (stderr w))).
  { unfold anonymize_try, open_read, open_write. rewrite Hin, Hcodec.
    unfold with_files.
    assert (Hrd : read_bytes p (set_file p [] w) = []).
    { unfold read_bytes, set_file. cbn [fs]. rewrite lookup_insert_eq. reflexivity. }
    rewrite Hrd, Hdec. reflexivity. }
  rewrite Ht. cbn [fst snd fs stderr logging]. rewrite lookup_insert_eq. auto.
Qed.

End MoreRunFacts.

(** ** Line by line, or the text as a whole *)

Section LinesFacts.
Context `{UnicodeData} `{RandomGen} `{Platform}.

Lemma sub_segments_app {St : Type} (repl : text -> St -> text * St) a b st :
  sub_segments repl (a ++ b) st =
  (fst (sub_segments repl a st) ++
     fst (sub_segments repl b (snd (sub_segments repl a st))),
   snd (sub_segments repl b (snd (sub_segments repl a st)))).
Proof.
  revert st. induction a as [|[c|tok] a IH]; intros st; cbn [app sub_segments].
  - cbn. destruct (sub_segments repl b st); reflexivity.
  - rewrite IH. destruct (sub_segments repl a st) as [o1 s1]. cbn [fst snd].
    reflexivity.
  - destruct (repl tok st) as [r s0]. rewrite IH.
    destruct (sub_segments repl a s0) as [o1 s1]. cbn [fst snd].
    rewrite app_assoc. reflexivity.
Qed.

(** A match holds no line feed. *)
Lemma match_without_lf w : full_match date_regex w = true -> ~ In LF w.
Proof.
  intros Hm.
  destruct (date_shape_inv _ Hm)
    as (c0 & c1 & c2 & c3 & c5 & c6 & c8 & c9 & -> & D0 & D1 & D2 & D3 & D5 & D6 & D8 & D9).
  assert (Hd : is_digit LF = false) by reflexivity.
  cbn [In]. intros Hin.
  repeat (destruct Hin as [E|Hin];
          [first [discriminate E | subst; congruence]|]).
  exact Hin.
Qed.

(** A window that reaches over a line feed is no match. *)
Lemma window_over_lf pre post :
  (length pre < 10)%nat ->
  full_match date_regex (take 10 (pre ++ LF :: post)) = false.
Proof.
  intros Hl. destruct (full_match date_regex _) eqn:E; [|reflexivity].
  exfalso. apply (match_without_lf _ E).
  rewrite take_app_ge by lia. apply in_or_app. right.
  destruct (10 - length pre)%nat as [|n] eqn:En; [lia|]. left. reflexivity.
Qed.

Lemma window_in_line (pre post : text) :
  (10 <= length pre)%nat -> take 10 (pre ++ post) = take 10 pre.
Proof. intros Hl. apply take_app_le. exact Hl. Qed.

(** The scan of a line does not depend on what follows its line feed. *)
Lemma scan_line_app body rest :
  scan (body ++ LF :: rest) = scan (body ++ [LF]) ++ scan rest.
Proof.
  induction body as [| c tl E IH | tok rest0 E IH] using scan_ind.
  - cbn [app]. rewrite !scan_copy; [reflexivity| |].
    + apply (window_over_lf [] []). cbn. lia.
    + apply (window_over_lf [] rest). cbn. lia.
  - assert (Hw : forall post,
      full_match date_regex (take 10 ((c :: tl) ++ LF :: post)) = false).
    { intros post. destruct (Nat.lt_ge_cases (length (c :: tl)) 10) as [Hlt|Hge].
      - apply window_over_lf. exact Hlt.
      - rewrite window_in_line by exact Hge. exact E. }
    cbn [app] in *. rewrite (scan_copy c (tl ++ LF :: rest)) by apply Hw.
    rewrite (scan_copy c (tl ++ [LF])) by apply Hw.
    rewrite IH. reflexivity.
  - rewrite <- !app_assoc.
    rewrite (scan_match tok (rest0 ++ LF :: rest)) by exact E.
    rewrite (scan_match tok (rest0 ++ [LF])) by exact E.
    rewrite IH. reflexivity.
Qed.

Lemma readlines_no_lf body :
  ~ In LF body -> readlines body = match body with [] => [] | _ => [body] end.
Proof.
  induction body as [|c tl IH]; [reflexivity|]. intros Hn. cbn [readlines].
  destruct (N.eqb_spec c LF) as [->|_]; [exfalso; apply Hn; left; reflexivity|].
  rewrite IH by (intros Hin; apply Hn; right; exact Hin).
  destruct tl; reflexivity.
Qed.

Lemma readlines_line body rest :
  ~ In LF body -> readlines (body ++ LF :: rest) = (body ++ [LF]) :: readlines rest.
Proof.
  induction body as [|c tl IH]; intros Hn; cbn [app readlines].
  - rewrite N.eqb_refl. reflexivity.
  - destruct (N.eqb_spec c LF) as [->|_]; [exfalso; apply Hn; left; reflexivity|].
    rewrite IH by (intros Hin; apply Hn; right; exact Hin). reflexivity.
Qed.

Lemma split_at_lf s :
  ~ In LF s \/ exists body rest, s = body ++ LF :: rest /\ ~ In LF body.
Proof.
  induction s as [|c tl IH]; [left; intros []|].
  destruct (N.eqb_spec c LF) as [->|Hc].
  - right. exists [], tl. split; [reflexivity|intros []].
  - destruct IH as [Hn|(body & rest & -> & Hn)].
    + left. intros [E|Hin]; [congruence|exact (Hn Hin)].
    + right. exists (c :: body), rest. split; [reflexivity|].
      intros [E|Hin]; [congruence|exact (Hn Hin)].
Qed.

(** The matches of the lines are the matches of the text. *)
Lemma scan_readlines s : concat (map scan (readlines s)) = scan s.
Proof.
  remember (length s) as n eqn:Hn. revert s Hn.
  induction n as [n IH] using lt_wf_ind. intros s Hn.
  destruct (split_at_lf s) as [Hno|(body & rest & -> & Hno)].
  - rewrite readlines_no_lf by exact Hno.
    destruct s; cbn; [reflexivity|]. rewrite app_nil_r. reflexivity.
  - rewrite readlines_line by exact Hno. cbn [map concat].
    rewrite (IH (length rest)); [|subst n; rewrite length_app; cbn; lia|reflexivity].
    symmetry. apply scan_line_app.
Qed.

Lemma write_lines_segments M fmt codec lines st out st' out' :
  write_lines M fmt codec lines st out = (inr tt, st', out') ->
  out' = out ++ write_translate
           (fst (sub_segments (replace_date M fmt) (concat (map scan lines)) st)) /\
  st' = snd (sub_segments (replace_date M fmt) (concat (map scan lines)) st).
Proof.
  revert st out. induction lines as [|line lines IH]; intros st out;
    cbn [write_lines map concat].
  - intros [= <- <-]. cbn. rewrite app_nil_r. auto.
  - unfold re_sub. rewrite sub_segments_app.
    destruct (sub_segments (replace_date M fmt) (scan line) st) as [aline st1].
    cbn [fst snd].
    destruct (forallb (can_encode codec) (write_translate aline)); [|discriminate].
    intros E. destruct (IH _ _ E) as [-> ->].
    rewrite write_translate_app, app_assoc. auto.
Qed.

(** The loop over the lines, when it reaches its end, has written the
    substitution of the whole text, and has drawn and logged as one scan
    of the whole text would: cutting the text into lines neither loses
    nor makes a match. *)
Theorem lines_as_whole_text M fmt codec s st out st' out' :
  write_lines M fmt codec (readlines s) st out = (inr tt, st', out') ->
  out' = out ++ write_translate (fst (re_sub (replace_date M fmt) s st)) /\
  st' = snd (re_sub (replace_date M fmt) s st).
Proof.
  intros E. destruct (write_lines_segments _ _ _ _ _ _ _ _ E) as [Ho Hs].
  rewrite scan_readlines in Ho, Hs. unfold re_sub. auto.
Qed.

End LinesFacts.

(** ** More runs on the sample platform *)

Module MoreRuns.
Import Sample Runs.

Definition st20 : pstate := mkpstate (seeded 20) [].
Definition last_days : text := text_of_string "9999-12-30".
Definition bad_format : list fitem := [FDir dY; FBad (text_of_string "%Q")].
Definition two_lines : text :=
  text_of_string "on 2023-06-15" ++ [10%N] ++ text_of_string "and 2023-02-30".

Definition world_refused : world :=
  world0 [("in.txt"%string, Regular visit); ("out.txt"%string, Refused)].

Lemma date_add_valid_witness :
  Calendar.valid_date (Calendar.mkdate 2024 3 1) = true /\
  Calendar.toordinal (Calendar.mkdate 2024 3 1) =
  Calendar.toordinal (Calendar.mkdate 2024 2 28) + 2.
Proof.
  apply (date_add_valid (Calendar.mkdate 2024 2 28) 2 (Calendar.mkdate 2024 3 1)).
  reflexivity.
Defined.

Lemma overflow_token_kept_witness :
  shift_date last_days 10 default_format st20 =
    (None, mkpstate (advance 10 (random_state st20))
             (logged st20 ++ [(ERROR, ShiftFailed last_days)])) /\
  replace_date 10 default_format last_days st20 =
    (last_days, mkpstate (advance 10 (random_state st20))
                  (logged st20 ++ [(ERROR, ShiftFailed last_days)])).
Proof.
  apply (overflow_token_kept last_days 10 default_format st20
           (Calendar.mkdate 9999 12 30)).
  - reflexivity.
  - lia.
  - intros [_ Hle]. vm_compute in Hle. apply Hle. reflexivity.
Defined.

Lemma negative_max_shift_warns_witness :
  shift_date (text_of_string "2023-06-15") (- 3) default_format st42 =
  (None, mkpstate (random_state st42)
           (logged st42 ++ [(WARNING, InvalidDate (text_of_string "2023-06-15"))])).
Proof.
  apply (negative_max_shift_warns (text_of_string "2023-06-15") (- 3) default_format
           st42 (Calendar.mkdate 2023 6 15)).
  - lia.
  - reflexivity.
Defined.

Lemma no_match_line_unchanged_witness :
  re_sub (replace_date 10 default_format) (text_of_string "12-34") st42 =
  (text_of_string "12-34", st42).
Proof.
  apply (no_match_line_unchanged (replace_date 10 default_format)
           (text_of_string "12-34") st42).
  intros i. do 6 (destruct i as [|i]; [reflexivity|]). reflexivity.
Defined.


Lemma unparsed_line_unchanged_witness :
  fst (re_sub (replace_date 10 default_format)
         (text_of_string "none on 2023-02-30 or 2023-13-01") st42) =
    text_of_string "none on 2023-02-30 or 2023-13-01" /\
  random_state
    (snd (re_sub (replace_date 10 default_format)
            (text_of_string "none on 2023-02-30 or 2023-13-01") st42)) =
    random_state st42.
Proof.
  apply (unparsed_line_unchanged 10 default_format
           (text_of_string "none on 2023-02-30 or 2023-13-01") st42).
  reflexivity.
Defined.

Lemma bad_format_copies_witness :
  fst (re_sub (replace_date 10 bad_format) (text_of_string "on 2023-06-15") st42) =
    text_of_string "on 2023-06-15" /\
  random_state
    (snd (re_sub (replace_date 10 bad_format) (text_of_string "on 2023-06-15") st42)) =
    random_state st42 /\
  parsed_matches bad_format (text_of_string "on 2023-06-15") = 0%nat.
Proof.
  apply (bad_format_copies 10 bad_format (text_of_string "on 2023-06-15") st42).
  reflexivity.
Defined.

Lemma other_files_untouched_witness :
  fs (snd (anonymize_data "in.txt" "out.txt" 10 (Some 42) default_format
             (Some "latin-1"%string) world_a)) !! "in.txt"%string =
  fs world_a !! "in.txt"%string.
Proof.
  apply (other_files_untouched "in.txt" "out.txt" 10 (Some 42) default_format
           (Some "latin-1"%string) world_a "in.txt").
  discriminate.
Defined.

Lemma failed_open_leaves_files_witness :
  anonymize_data "in.txt" "out.txt" 10 (Some 42) default_format
    (Some "latin-1"%string) world_refused =
  (inr tt, logging ERROR AnonymizeFailed world_refused).
Proof.
  apply (failed_open_leaves_files "in.txt" "out.txt" 10 (Some 42) default_format
           "latin-1" world_refused).
  - reflexivity.
  - right. right. left. reflexivity.
Defined.

Lemma same_path_empties_file_witness :
  fst (anonymize_data "in.txt" "in.txt" 10 (Some 42) default_format
         (Some "latin-1"%string) world_a) = inr tt /\
  fs (snd (anonymize_data "in.txt" "in.txt" 10 (Some 42) default_format
             (Some "latin-1"%string) world_a)) !! "in.txt"%string = Some (Regular []) /\
  stderr (snd (anonymize_data "in.txt" "in.txt" 10 (Some 42) default_format
                 (Some "latin-1"%string) world_a)) =
    stderr world_a ++ [(INFO, Anonymized "in.txt" "in.txt")].
Proof.
  apply (same_path_empties_file "in.txt" 10 (Some 42) default_format "latin-1"
           latin_1 visit world_a); reflexivity.
Defined.

Lemma lines_as_whole_text_witness :
  snd (write_lines 10 default_format latin_1 (readlines two_lines) st42 []) =
    [] ++ write_translate (fst (re_sub (replace_date 10 default_format) two_lines st42)) /\
  snd (fst (write_lines 10 default_format latin_1 (readlines two_lines) st42 [])) =
    snd (re_sub (replace_date 10 default_format) two_lines st42).
Proof.
  apply (lines_as_whole_text 10 default_format latin_1 two_lines st42 []).
  reflexivity.
Defined.

End MoreRuns.
